(** * ArduPlane tiltrotor control: a shallow embedding of [tiltrotor.cpp]

    The C++ [float] is read as a real number: every arithmetic
    operation below is the exact operation on [R], comparisons are
    the decidable order of [R], and [sinf]/[cosf] are [sin]/[cos].
    Integer parameters ([AP_Int8], [AP_Int16]) that are only ever used
    in float arithmetic are read as reals too; the tilt mask and the
    millisecond clock stay integers, with their wrap-around written
    out.  Calls that write to the servo layer or to the motor mixer
    are recorded, in program order, as a list of [output] events. *)

From Stdlib Require Import Reals Lra Lia List ZArith Bool PeanoNat.
Import ListNotations.

Open Scope R_scope.

(* ------------------------------------------------------------------ *)
(** * Part I: the program

    ** Helpers of AP_Math and AP_Common used by the file *)

Module APMath.

(** Modelled from the spec: the macro [MAX] of AP_Common is not part of
    this file.  The spec has the rate "floored at 90" by it: the larger
    of its two arguments, [((a)>(b)?(a):(b))]. *)
Definition MAX (a b : R) : R := if Rlt_dec b a then a else b.

(** Modelled from the spec: [constrain_float] lives in AP_Math, which
    is not part of this file.  The spec calls it a clamp of a value to
    a valid range; it is the usual one: below [low] gives [low], above
    [high] gives [high], anything else is returned as it is. *)
Definition constrain_float (amt low high : R) : R :=
  if Rlt_dec amt low then low
  else if Rlt_dec high amt then high
  else amt.

(** Modelled from the spec: [radians] of AP_Math is not part of this
    file.  The spec writes the angles it is applied to in degrees
    ([cos(current_tilt * 90 deg)]): degrees to radians. *)
Definition radians (deg : R) : R := deg * (PI / 180).

(** [FLT_EPSILON] of <cfloat>, for a 24 bit significand. *)
Definition FLT_EPSILON : R := / 2 ^ 23.

(** Modelled from the spec: [is_zero] of AP_Math is not part of this
    file.  It is the float test for zero, [fabsf(x) < FLT_EPSILON]; the
    file uses it only to pick an empty motor mask at zero throttle. *)
Definition is_zero (x : R) : bool :=
  if Rlt_dec (Rabs x) FLT_EPSILON then true else false.

(** Boolean readings of the two float comparisons of the file. *)
Definition Rltb (a b : R) : bool := if Rlt_dec a b then true else false.
Definition Rleb (a b : R) : bool := if Rle_dec a b then true else false.

End APMath.
Import APMath.

(* ------------------------------------------------------------------ *)
(** ** Parameters, collaborators and state *)

(** [Q_TILT_TYPE] *)
Inductive tilt_type : Type :=
| TILT_TYPE_CONTINUOUS
| TILT_TYPE_BINARY
| TILT_TYPE_VECTORED_YAW
| TILT_TYPE_BICOPTER.

Definition tilt_type_eqb (a b : tilt_type) : bool :=
  match a, b with
  | TILT_TYPE_CONTINUOUS, TILT_TYPE_CONTINUOUS
  | TILT_TYPE_BINARY, TILT_TYPE_BINARY
  | TILT_TYPE_VECTORED_YAW, TILT_TYPE_VECTORED_YAW
  | TILT_TYPE_BICOPTER, TILT_TYPE_BICOPTER => true
  | _, _ => false
  end.

(** The parameter group [Tiltrotor::var_info]. *)
Record Params : Type := {
  enable            : Z;
  tilt_mask         : Z;
  max_rate_up_dps   : R;
  max_angle_deg     : R;
  type              : tilt_type;
  max_rate_down_dps : R;
  tilt_yaw_angle    : R;
  fixed_angle       : R;
  fixed_gain        : R
}.

(** The flight modes the file compares [plane.control_mode] with. *)
Inductive flight_mode : Type :=
| mode_manual
| mode_qautotune
| mode_qacro
| mode_qstabilize
| mode_qhover
| mode_other.

Definition flight_mode_eqb (a b : flight_mode) : bool :=
  match a, b with
  | mode_manual, mode_manual
  | mode_qautotune, mode_qautotune
  | mode_qacro, mode_qacro
  | mode_qstabilize, mode_qstabilize
  | mode_qhover, mode_qhover
  | mode_other, mode_other => true
  | _, _ => false
  end.

(** [Tiltrotor_Transition::transition_state], in declaration order. *)
Inductive transition_state_t : Type :=
| TRANSITION_AIRSPEED_WAIT
| TRANSITION_TIMER
| TRANSITION_DONE.

Definition transition_ord (t : transition_state_t) : nat :=
  match t with
  | TRANSITION_AIRSPEED_WAIT => 0
  | TRANSITION_TIMER => 1
  | TRANSITION_DONE => 2
  end.

(** The servo functions the file reads or writes. *)
Inductive servo_function : Type :=
| k_motor_tilt
| k_tiltMotorLeft
| k_tiltMotorRight
| k_tiltMotorRear
| k_tiltMotorRearLeft
| k_tiltMotorRearRight
| k_throttle
| k_elevon_left
| k_elevon_right
| k_elevator.

(** What one cycle reads from its collaborators ([plane], [quadplane],
    [hal], [motors], [SRV_Channels], [AP_HAL::millis]). *)
Record Env : Type := {
  control_mode        : flight_mode;
  soft_armed          : bool;   (* hal.util->get_soft_armed() *)
  in_vtol_mode        : bool;   (* quadplane.in_vtol_mode() *)
  assisted_flight     : bool;   (* quadplane.assisted_flight *)
  G_Dt                : R;      (* plane.G_Dt *)
  rudder_dt           : R;      (* plane.rudder_dt *)
  get_output_scaled   : servo_function -> R;
  motors_get_throttle : R;      (* motors->get_throttle() *)
  motors_get_yaw      : R;      (* motors->get_yaw() *)
  motors_get_roll     : R;      (* motors->get_roll() *)
  get_roll_factor     : nat -> R;
  rc_fwd_thr_ch       : bool;   (* quadplane.rc_fwd_thr_ch != nullptr *)
  forward_throttle_pct : R;
  transition_state    : transition_state_t;
  throttle_min        : R;      (* plane.aparm.throttle_min *)
  motor_test_running  : bool;
  millis              : Z;      (* AP_HAL::millis(), uint32_t *)
  last_armed_change   : Z;      (* hal.util->get_last_armed_change() *)
  option_disarmed_tilt : bool;  (* options & OPTION_DISARMED_TILT *)
  rudder_control_in   : R;
  rudder_range        : R;
  FW_vector_throttle_scaling : R;
  speed_scaler        : R
}.

(** The members of [Tiltrotor] that change from cycle to cycle. *)
Record State : Type := {
  current_tilt     : R;
  current_throttle : R;
  motors_active    : bool
}.

(** The state of a freshly constructed [Tiltrotor]. *)
Definition initial_state : State :=
  {| current_tilt := 0; current_throttle := 0; motors_active := false |}.

Definition set_current_tilt (s : State) (t : R) : State :=
  {| current_tilt := t;
     current_throttle := current_throttle s;
     motors_active := motors_active s |}.

Definition set_current_throttle (s : State) (t : R) : State :=
  {| current_tilt := current_tilt s;
     current_throttle := t;
     motors_active := motors_active s |}.

Definition set_motors_active (s : State) (b : bool) : State :=
  {| current_tilt := current_tilt s;
     current_throttle := current_throttle s;
     motors_active := b |}.

(** A call into the output layer. *)
Inductive output : Type :=
| set_output_scaled (f : servo_function) (value : R)
| output_motor_mask (thrust : R) (mask : Z) (rudder_dt : R).

(* ------------------------------------------------------------------ *)
(** ** Slew limiter *)

Section Slew.

Variable p : Params.
Variable e : Env.

(** The [fast_tilt] flag of [tilt_max_change]. *)
Definition fast_tilt : bool :=
  flight_mode_eqb (control_mode e) mode_manual
  || (soft_armed e && negb (in_vtol_mode e) && negb (assisted_flight e)).

(** The local [rate] of [tilt_max_change], as it stands at the
    [return]. *)
Definition tilt_rate (up : bool) : R :=
  let rate :=
    if up || Rleb (max_rate_down_dps p) 0
    then max_rate_up_dps p
    else max_rate_down_dps p in
  if negb (tilt_type_eqb (type p) TILT_TYPE_BINARY) && negb up then
    if fast_tilt then MAX rate 90 else rate
  else rate.

(** [Tiltrotor::tilt_max_change] *)
Definition tilt_max_change (up : bool) : R :=
  tilt_rate up * G_Dt e / 90.

(** [Tiltrotor::slew] *)
Definition slew (s : State) (newtilt : R) : State * list output :=
  let max_change := tilt_max_change (Rltb newtilt (current_tilt s)) in
  let s' := set_current_tilt s
              (constrain_float newtilt
                 (current_tilt s - max_change) (current_tilt s + max_change)) in
  (s', [set_output_scaled k_motor_tilt (1000 * current_tilt s')]).

(** [Tiltrotor::binary_slew] *)
Definition binary_slew (s : State) (forward : bool) : State * list output :=
  let out := [set_output_scaled k_motor_tilt (if forward then 1000 else 0)] in
  let max_change := tilt_max_change (negb forward) in
  if forward then
    (set_current_tilt s (constrain_float (current_tilt s + max_change) 0 1), out)
  else
    (set_current_tilt s (constrain_float (current_tilt s - max_change) 0 1), out).

End Slew.

(* ------------------------------------------------------------------ *)
(** ** Mixing policy: one control cycle *)

Section Update.

Variable p : Params.
Variable e : Env.

(** [(uint8_t)tilt_mask.get()], or [0] when the throttle is zero. *)
Definition motor_mask (throttle : R) : Z :=
  if is_zero throttle then 0%Z else (tilt_mask p mod 256)%Z.

(** [Tiltrotor::continuous_update] *)
Definition continuous_update (s0 : State) : State * list output :=
  let s := set_motors_active s0 false in
  if negb (in_vtol_mode e) && (negb (soft_armed e) || negb (assisted_flight e)) then
    let '(s, o1) := slew p e s 1 in
    let max_change := tilt_max_change p e false in
    let new_throttle :=
      constrain_float (get_output_scaled e k_throttle * 0.01) 0 1 in
    let s :=
      if Rltb (current_tilt s) 1 then
        set_current_throttle s
          (constrain_float new_throttle
             (current_throttle s - max_change) (current_throttle s + max_change))
      else set_current_throttle s new_throttle in
    let s :=
      if negb (soft_armed e) then set_current_throttle s 0
      else set_motors_active s true in
    let o2 :=
      if negb (motor_test_running e) then
        [output_motor_mask (current_throttle s)
           (motor_mask (current_throttle s)) (rudder_dt e)]
      else [] in
    (s, o1 ++ o2)
  else
    let motors_throttle := motors_get_throttle e in
    let max_change :=
      tilt_max_change p e (Rltb motors_throttle (current_throttle s)) in
    let s :=
      set_current_throttle s
        (constrain_float motors_throttle
           (current_throttle s - max_change) (current_throttle s + max_change)) in
    if flight_mode_eqb (control_mode e) mode_qautotune then slew p e s 0
    else if negb (assisted_flight e)
            && (flight_mode_eqb (control_mode e) mode_qacro
                || flight_mode_eqb (control_mode e) mode_qstabilize
                || flight_mode_eqb (control_mode e) mode_qhover) then
      if negb (rc_fwd_thr_ch e) then slew p e s 0
      else slew p e s (0.01 * forward_throttle_pct e)
    else if assisted_flight e
            && (transition_ord TRANSITION_TIMER
                <=? transition_ord (transition_state e))%nat then
      slew p e s 1
    else
      let settilt :=
        constrain_float
          ((get_output_scaled e k_throttle - MAX (throttle_min e) 0) / 50) 0 1 in
      slew p e s (settilt * max_angle_deg p / 90).

(** [Tiltrotor::binary_update] *)
Definition binary_update (s0 : State) : State * list output :=
  let s := set_motors_active s0 true in
  if negb (in_vtol_mode e) then
    let '(s, o1) := binary_slew p e s true in
    let new_throttle := get_output_scaled e k_throttle * 0.01 in
    let o2 :=
      if Rleb 1 (current_tilt s) then
        [output_motor_mask new_throttle (motor_mask new_throttle) (rudder_dt e)]
      else [] in
    (s, o1 ++ o2)
  else binary_slew p e s false.

(** [Tiltrotor::enabled]: [enable > 0]. *)
Definition enabled : bool := (0 <? enable p)%Z.

(** [Tiltrotor::fully_fwd] *)
Definition fully_fwd (s : State) : bool :=
  if negb enabled || (tilt_mask p =? 0)%Z then false
  else Rleb 1 (current_tilt s).

(** *** Vectoring *)

Definition total_angle : R := 90 + tilt_yaw_angle p + fixed_angle p.
Definition zero_out : R := tilt_yaw_angle p / total_angle.
Definition fixed_tilt_limit : R := fixed_angle p / total_angle.
Definition level_out : R := 1 - fixed_tilt_limit.

Definition base_output (s : State) : R :=
  zero_out + current_tilt s * (level_out - zero_out).

Definition TILT_DELAY_MS : Z := 3000.

(** [now - hal.util->get_last_armed_change()] in [uint32_t]. *)
Definition since_armed_change : Z :=
  ((millis e - last_armed_change e) mod 2 ^ 32)%Z.

(** The five writes of the disarmed test, VTOL flavour. *)
Definition ground_test_vtol (s : State) : list output :=
  let base_output := base_output s in
  let yaw_out := rudder_control_in e / rudder_range e in
  let yaw_range := zero_out in
  [ set_output_scaled k_tiltMotorLeft
      (1000 * constrain_float (base_output + yaw_out * yaw_range) 0 1);
    set_output_scaled k_tiltMotorRight
      (1000 * constrain_float (base_output - yaw_out * yaw_range) 0 1);
    set_output_scaled k_tiltMotorRear
      (1000 * constrain_float base_output 0 1);
    set_output_scaled k_tiltMotorRearLeft
      (1000 * constrain_float (base_output + yaw_out * yaw_range) 0 1);
    set_output_scaled k_tiltMotorRearRight
      (1000 * constrain_float (base_output - yaw_out * yaw_range) 0 1) ].

(** The five writes that follow elevon and elevator with [gain]; the
    disarmed test in fixed wing mode and the flying fixed wing branch
    share them. *)
Definition fixed_wing_tilt (s : State) (gain : R) : list output :=
  let base_output := base_output s in
  let right := gain * get_output_scaled e k_elevon_right / 4500 in
  let left := gain * get_output_scaled e k_elevon_left / 4500 in
  let mid := gain * get_output_scaled e k_elevator / 4500 in
  [ set_output_scaled k_tiltMotorLeft
      (1000 * constrain_float (base_output - right) 0 1);
    set_output_scaled k_tiltMotorRight
      (1000 * constrain_float (base_output - left) 0 1);
    set_output_scaled k_tiltMotorRearLeft
      (1000 * constrain_float (base_output + left) 0 1);
    set_output_scaled k_tiltMotorRearRight
      (1000 * constrain_float (base_output + right) 0 1);
    set_output_scaled k_tiltMotorRear
      (1000 * constrain_float (base_output + mid) 0 1) ].

(** The body of the disarmed test, once its delay has passed. *)
Definition ground_test (s : State) : list output :=
  if in_vtol_mode e then ground_test_vtol s
  else fixed_wing_tilt s (fixed_gain p * fixed_tilt_limit).

(** The rest of [vectoring], after the disarmed test. *)
Definition vectoring_flight (s : State) : list output :=
  let base_output := base_output s in
  let tilt_threshold := max_angle_deg p / 90 in
  let no_yaw := Rltb tilt_threshold (current_tilt s) in
  if no_yaw then
    let scaler :=
      if flight_mode_eqb (control_mode e) mode_manual then 1
      else FW_vector_throttle_scaling e / speed_scaler e in
    fixed_wing_tilt s (fixed_gain p * fixed_tilt_limit * scaler)
  else
    let yaw_out := motors_get_yaw e in
    let roll_out := motors_get_roll e in
    let yaw_range := zero_out in
    let tilt_rad := radians (current_tilt s * 90) in
    let sin_tilt := sin tilt_rad in
    let cos_tilt := cos tilt_rad in
    let avg_roll_factor := 0.5 in
    let tilt_offset :=
      constrain_float (yaw_out * cos_tilt + avg_roll_factor * roll_out * sin_tilt)
        (-1) 1 in
    [ set_output_scaled k_tiltMotorLeft
        (1000 * constrain_float (base_output + tilt_offset * yaw_range) 0 1);
      set_output_scaled k_tiltMotorRight
        (1000 * constrain_float (base_output - tilt_offset * yaw_range) 0 1);
      set_output_scaled k_tiltMotorRear
        (1000 * constrain_float base_output 0 1);
      set_output_scaled k_tiltMotorRearLeft
        (1000 * constrain_float (base_output + tilt_offset * yaw_range) 0 1);
      set_output_scaled k_tiltMotorRearRight
        (1000 * constrain_float (base_output - tilt_offset * yaw_range) 0 1) ].

(** [Tiltrotor::vectoring] *)
Definition vectoring (s : State) : list output :=
  if negb (soft_armed e) && option_disarmed_tilt e then
    if (TILT_DELAY_MS <? since_armed_change)%Z then ground_test s
    else []
  else vectoring_flight s.

(** [Tiltrotor::update] *)
Definition update (s : State) : State * list output :=
  if negb enabled || (tilt_mask p =? 0)%Z then (s, [])
  else
    let '(s, o1) :=
      if tilt_type_eqb (type p) TILT_TYPE_BINARY then binary_update s
      else continuous_update s in
    let o2 :=
      if tilt_type_eqb (type p) TILT_TYPE_VECTORED_YAW then vectoring s
      else [] in
    (s, o1 ++ o2).

End Update.

(* ------------------------------------------------------------------ *)
(** ** Thrust compensation *)

(** [thrust[i] = v] on the caller's array; the array does not grow. *)
Fixpoint upd (i : nat) (v : R) (thrust : list R) : list R :=
  match thrust, i with
  | [], _ => []
  | _ :: rest, O => v :: rest
  | t :: rest, S i' => t :: upd i' v rest
  end.

(** [for (uint8_t i=0; i<num_motors; i++) body] over a loop state. *)
Definition for_motors {A : Type} (num_motors : nat) (body : A -> nat -> A) (a : A) : A :=
  fold_left body (seq 0 num_motors) a.

Section Compensate.

Variable p : Params.
Variable e : Env.
Variable s : State.

(** Modelled from the spec: [is_motor_tilting] is declared in the
    header, which is not part of this file.  The spec has [tilt_mask]
    as a bitmask over motor indices that says which motors tilt: motor
    [i] tilts when bit [i] of the mask is set. *)
Definition is_motor_tilting (i : nat) : bool :=
  Z.testbit (tilt_mask p) (Z.of_nat i).

(** State of the first loop: the array, [tilt_total] and the
    [uint8_t tilt_count]. *)
Record factors_acc : Type := {
  fa_thrust : list R;
  tilt_total : R;
  tilt_count : nat
}.

(** Body of the first loop of [tilt_compensate_angle]. *)
Definition apply_factor (non_tilted_mul tilted_mul : R)
    (a : factors_acc) (i : nat) : factors_acc :=
  if negb (is_motor_tilting i) then
    {| fa_thrust := upd i (nth i (fa_thrust a) 0 * non_tilted_mul) (fa_thrust a);
       tilt_total := tilt_total a;
       tilt_count := tilt_count a |}
  else
    let thrust := upd i (nth i (fa_thrust a) 0 * tilted_mul) (fa_thrust a) in
    {| fa_thrust := thrust;
       tilt_total := tilt_total a + nth i thrust 0;
       tilt_count := (tilt_count a + 1) mod 256 |}.

Definition apply_factors (thrust : list R) (num_motors : nat)
    (non_tilted_mul tilted_mul : R) : factors_acc :=
  for_motors num_motors (apply_factor non_tilted_mul tilted_mul)
    {| fa_thrust := thrust; tilt_total := 0; tilt_count := 0 |}.

(** [tilt_total / tilt_count].  The divisor is counted at run time and
    the code does not test it, so the quotient is tracked: [None]
    stands for the not-a-number that [0.0f / 0] gives. *)
Definition avg_tilt_thrust (a : factors_acc) : option R :=
  match tilt_count a with
  | O => None
  | S _ => Some (tilt_total a / INR (tilt_count a))
  end.

Definition sin_tilt : R := sin (radians (current_tilt s * 90)).
Definition yaw_gain : R := sin (radians (tilt_yaw_angle p)).

(** Body of the second loop for a tilted motor [i], with the average
    in hand; the state is the array and [largest_tilted]. *)
Definition equalise_motor (avg : R) (a : list R * R) (i : nat) : list R * R :=
  let '(thrust, largest_tilted) := a in
  let thrust :=
    upd i (current_tilt s * avg + nth i thrust 0 * (1 - current_tilt s)) thrust in
  let diff_thrust :=
    get_roll_factor e i * motors_get_yaw e * sin_tilt * yaw_gain in
  let thrust := upd i (nth i thrust 0 + diff_thrust) thrust in
  (thrust, MAX largest_tilted (nth i thrust 0)).

(** Body of the second loop.  A tilted motor reads the average; when
    the average is not a number the array is lost. *)
Definition equalise_step (avg : option R)
    (a : option (list R * R)) (i : nat) : option (list R * R) :=
  match a with
  | None => None
  | Some a =>
      if is_motor_tilting i then
        match avg with
        | Some q => Some (equalise_motor q a i)
        | None => None
        end
      else Some a
  end.

Definition equalise (avg : option R) (thrust : list R) (num_motors : nat)
  : option (list R * R) :=
  for_motors num_motors (equalise_step avg) (Some (thrust, 0)).

(** The array and [largest_tilted] as they stand before the final
    [if (largest_tilted > 1.0f)]. *)
Definition thrust_preclip (thrust : list R) (num_motors : nat)
    (non_tilted_mul tilted_mul : R) : option (list R * R) :=
  let a := apply_factors thrust num_motors non_tilted_mul tilted_mul in
  equalise (avg_tilt_thrust a) (fa_thrust a) num_motors.

(** The final rescale. *)
Definition rescale (num_motors : nat) (a : list R * R) : list R :=
  let '(thrust, largest_tilted) := a in
  if Rlt_dec 1 largest_tilted then
    let scale := 1 / largest_tilted in
    for_motors num_motors (fun thrust i => upd i (nth i thrust 0 * scale) thrust) thrust
  else thrust.

(** [Tiltrotor::tilt_compensate_angle] *)
Definition tilt_compensate_angle (thrust : list R) (num_motors : nat)
    (non_tilted_mul tilted_mul : R) : option (list R) :=
  option_map (rescale num_motors)
    (thrust_preclip thrust num_motors non_tilted_mul tilted_mul).

(** [Tiltrotor::tilt_compensate] *)
Definition tilt_compensate (thrust : list R) (num_motors : nat) : option (list R) :=
  if Rle_dec (current_tilt s) 0 then Some thrust
  else if in_vtol_mode e then
    let tilt_factor := cos (radians (current_tilt s * 90)) in
    tilt_compensate_angle thrust num_motors tilt_factor 1
  else
    let inv_tilt_factor :=
      if Rlt_dec 0.98 (current_tilt s) then 1 / cos (radians (0.98 * 90))
      else 1 / cos (radians (current_tilt s * 90)) in
    tilt_compensate_angle thrust num_motors 1 inv_tilt_factor.

End Compensate.

(* ------------------------------------------------------------------ *)
(** ** Bicopter output *)

(** Modelled from the spec: [is_negative] of AP_Math is not part of this
    file.  The spec has it pick the negative-going mixer values; it is
    the float test [x <= -FLT_EPSILON]. *)
Definition is_negative (x : R) : bool :=
  if Rle_dec x (- FLT_EPSILON) then true else false.

(** What [bicopter_output] asks of its collaborators, in order. *)
Inductive bicopter_call : Type :=
| call_hold_stabilize (throttle_in : R)
| call_motors_output (run_rate_controller : bool)
| call_output (o : output).

Section Bicopter.

Variable p : Params.
Variable e : Env.

(** [SERVO_MAX] of defines.h is not part of this file: the full servo
    travel, taken as given. *)
Variable SERVO_MAX : R.

(** [Tiltrotor::bicopter_output].  [mixed] is what
    [SRV_Channels::get_output_scaled] returns once
    [quadplane.motors_output] has run. *)
Definition bicopter_output (s : State) (mixed : servo_function -> R)
  : list bicopter_call :=
  if negb (tilt_type_eqb (type p) TILT_TYPE_BICOPTER) || motor_test_running e
  then []
  else if negb (in_vtol_mode e) && fully_fwd p s then
    [ call_output (set_output_scaled k_tiltMotorLeft (- SERVO_MAX));
      call_output (set_output_scaled k_tiltMotorRight (- SERVO_MAX)) ]
  else
    let throttle := get_output_scaled e k_throttle in
    let mixer :=
      if assisted_flight e then
        [ call_hold_stabilize (throttle * 0.01); call_motors_output true ]
      else [ call_motors_output false ] in
    let tilt_left := mixed k_tiltMotorLeft in
    let tilt_right := mixed k_tiltMotorRight in
    let tilt_left :=
      if is_negative tilt_left then tilt_left * (tilt_yaw_angle p / 90)
      else tilt_left in
    let tilt_right :=
      if is_negative tilt_right then tilt_right * (tilt_yaw_angle p / 90)
      else tilt_right in
    let scaling := cos (current_tilt s * (PI / 2)) in
    let tilt_left := tilt_left * scaling in
    let tilt_right := tilt_right * scaling in
    let tilt_left :=
      constrain_float (- (current_tilt s * SERVO_MAX) + tilt_left)
        (- SERVO_MAX) SERVO_MAX in
    let tilt_right :=
      constrain_float (- (current_tilt s * SERVO_MAX) + tilt_right)
        (- SERVO_MAX) SERVO_MAX in
    mixer ++
    [ call_output (set_output_scaled k_tiltMotorLeft tilt_left);
      call_output (set_output_scaled k_tiltMotorRight tilt_right) ].

End Bicopter.

(* ------------------------------------------------------------------ *)
(** ** Transition yaw target *)

(** The two members the yaw tracker keeps. *)
Record YawState : Type := {
  transition_yaw_cd     : R;
  transition_yaw_set_ms : Z     (* uint32_t *)
}.

(** What one call of the yaw tracker reads. *)
Record YawEnv : Type := {
  yaw_millis               : Z;        (* AP_HAL::millis() *)
  pilot_input_yaw_rate_cds : R;        (* quadplane.get_pilot_input_yaw_rate_cds() *)
  ahrs_yaw_sensor          : Z;        (* quadplane.ahrs.yaw_sensor *)
  airspeed_estimate        : option R; (* ahrs.airspeed_estimate(aspeed) *)
  nav_roll_cd              : Z;        (* plane.nav_roll_cd *)
  airspeed_min             : R         (* plane.aparm.airspeed_min *)
}.

Section YawTarget.

(** [fixedwing_turn_rate] of AP_Math is not part of this file: the yaw
    rate in deg/s of a coordinated turn at a bank angle and airspeed,
    taken as given. *)
Variable fixedwing_turn_rate : R -> R -> R.

(** [Tiltrotor::update_yaw_target] *)
Definition update_yaw_target (y : YawState) (v : YawEnv) : YawState :=
  let now := yaw_millis v in
  let since_set := ((now - transition_yaw_set_ms y) mod 2 ^ 32)%Z in
  let yaw_cd :=
    if (100 <? since_set)%Z || negb (is_zero (pilot_input_yaw_rate_cds v))
    then IZR (ahrs_yaw_sensor v)
    else transition_yaw_cd y in
  let yaw_cd :=
    match airspeed_estimate v with
    | Some aspeed =>
        if (1000 <? Z.abs (nav_roll_cd v))%Z then
          let dt := IZR since_set * 0.001 in
          let airspeed_min := MAX (airspeed_min v) 5 in
          let yaw_rate_cds :=
            fixedwing_turn_rate (IZR (nav_roll_cd v) * 0.01)
              (MAX aspeed airspeed_min) * 100 in
          yaw_cd + yaw_rate_cds * dt
        else yaw_cd
    | None => yaw_cd
    end in
  {| transition_yaw_cd := yaw_cd; transition_yaw_set_ms := now |}.

(** [Tiltrotor_Transition::update_yaw_target]: the [bool] result and
    the reference argument together are an [option].  [is_vectored] is
    [tiltrotor.is_vectored()]. *)
Definition transition_update_yaw_target (is_vectored : bool) (e : Env)
    (y : YawState) (v : YawEnv) : YawState * option R :=
  if negb (is_vectored
           && (transition_ord (transition_state e)
               <=? transition_ord TRANSITION_TIMER)%nat)
  then (y, None)
  else
    let y' := update_yaw_target y v in
    (y', Some (transition_yaw_cd y')).

End YawTarget.

(** [Tiltrotor_Transition::show_vtol_view] *)
Definition show_vtol_view (is_vectored : bool) (e : Env) : bool :=
  let show_vtol := in_vtol_mode e in
  if negb show_vtol && is_vectored
     && (transition_ord (transition_state e)
         <=? transition_ord TRANSITION_TIMER)%nat
  then true
  else show_vtol.

(* ------------------------------------------------------------------ *)
(** ** Setup *)

(** What [setup] reads besides the parameters. *)
Record SetupEnv : Type := {
  enable_configured    : bool;   (* enable.configured() *)
  motors_matrix        : bool;   (* motors_var_info == AP_MotorsMatrix::var_info *)
  transition_allocated : bool    (* new Tiltrotor_Transition(...) != nullptr *)
}.

(** The calls [setup] makes, in order. *)
Inductive setup_call : Type :=
| enable_set_and_save (v : Z)
| disable_yaw_torque
| set_thrust_compensation_callback
| set_range (f : servo_function) (range : Z)
| allocation_error.

(** The members [setup] leaves behind; [_is_vectored] and
    [setup_complete] start out false. *)
Record SetupResult : Type := {
  setup_params   : Params;
  is_vectored    : bool;
  setup_complete : bool;
  setup_calls    : list setup_call
}.

Definition set_enable (p : Params) (v : Z) : Params :=
  {| enable := v;
     tilt_mask := tilt_mask p;
     max_rate_up_dps := max_rate_up_dps p;
     max_angle_deg := max_angle_deg p;
     type := type p;
     max_rate_down_dps := max_rate_down_dps p;
     tilt_yaw_angle := tilt_yaw_angle p;
     fixed_angle := fixed_angle p;
     fixed_gain := fixed_gain p |}.

(** [Tiltrotor::setup].  [AP_BoardConfig::allocation_error] does not
    return. *)
Definition setup (p : Params) (c : SetupEnv) : SetupResult :=
  let auto :=
    negb (enable_configured c)
    && (negb (tilt_mask p =? 0)%Z || tilt_type_eqb (type p) TILT_TYPE_BICOPTER) in
  let p1 := if auto then set_enable p 1 else p in
  let calls0 := if auto then [enable_set_and_save 1] else [] in
  if (enable p1 <=? 0)%Z then
    {| setup_params := p1; is_vectored := false; setup_complete := false;
       setup_calls := calls0 |}
  else
    let vectored :=
      negb (tilt_mask p1 =? 0)%Z && tilt_type_eqb (type p1) TILT_TYPE_VECTORED_YAW in
    let calls1 :=
      if motors_matrix c && vectored then [disable_yaw_torque] else [] in
    let calls2 :=
      if negb (tilt_mask p1 =? 0)%Z then
        set_thrust_compensation_callback
        :: (if tilt_type_eqb (type p1) TILT_TYPE_VECTORED_YAW then
              [ set_range k_tiltMotorLeft 1000;
                set_range k_tiltMotorRight 1000;
                set_range k_tiltMotorRear 1000;
                set_range k_tiltMotorRearLeft 1000;
                set_range k_tiltMotorRearRight 1000 ]
            else [])
      else [] in
    if transition_allocated c then
      {| setup_params := p1; is_vectored := vectored; setup_complete := true;
         setup_calls := calls0 ++ calls1 ++ calls2 |}
    else
      {| setup_params := p1; is_vectored := vectored; setup_complete := false;
         setup_calls := calls0 ++ calls1 ++ calls2 ++ [allocation_error] |}.

(* ------------------------------------------------------------------ *)
(** * Part II: what the properties are stated with *)

Section Specification.

Variable p : Params.

(** How many of the motors [0 .. n-1] tilt. *)
Definition count_tilted (n : nat) : nat :=
  length (filter (is_motor_tilting p) (seq 0 n)).

(** The target the continuous policy hands to [slew], read off the
    branches of [continuous_update]. *)
Definition tilt_target (e : Env) : R :=
  if negb (in_vtol_mode e) && (negb (soft_armed e) || negb (assisted_flight e))
  then 1
  else if flight_mode_eqb (control_mode e) mode_qautotune then 0
  else if negb (assisted_flight e)
          && (flight_mode_eqb (control_mode e) mode_qacro
              || flight_mode_eqb (control_mode e) mode_qstabilize
              || flight_mode_eqb (control_mode e) mode_qhover)
  then (if negb (rc_fwd_thr_ch e) then 0 else 0.01 * forward_throttle_pct e)
  else if assisted_flight e
          && (transition_ord TRANSITION_TIMER
              <=? transition_ord (transition_state e))%nat
  then 1
  else constrain_float
         ((get_output_scaled e k_throttle - MAX (throttle_min e) 0) / 50) 0 1
       * max_angle_deg p / 90.

(** The direction [update] hands to [tilt_max_change]: up means back
    toward hover. *)
Definition cycle_moves_up (e : Env) (s : State) : bool :=
  if tilt_type_eqb (type p) TILT_TYPE_BINARY then in_vtol_mode e
  else Rltb (tilt_target e) (current_tilt s).

(** One slew operation of either flavour, with what it reads. *)
Inductive tilt_op : Type :=
| op_slew (e : Env) (newtilt : R)
| op_binary_slew (e : Env) (forward : bool).

Definition apply_tilt_op (s : State) (o : tilt_op) : State :=
  match o with
  | op_slew e newtilt => fst (slew p e s newtilt)
  | op_binary_slew e forward => fst (binary_slew p e s forward)
  end.

Definition run_tilt_ops (ops : list tilt_op) : State :=
  fold_left apply_tilt_op ops initial_state.

(** A continuous slew is given a target in [0, 1] and a cycle time
    that is not negative. *)
Definition tilt_op_ok (o : tilt_op) : Prop :=
  match o with
  | op_slew e newtilt => 0 <= G_Dt e /\ 0 <= newtilt <= 1
  | op_binary_slew _ _ => True
  end.

(** The masked forward-motor call of [binary_update]. *)
Definition binary_motor_output (e : Env) : output :=
  let new_throttle := get_output_scaled e k_throttle * 0.01 in
  output_motor_mask new_throttle (motor_mask p new_throttle) (rudder_dt e).

(** The cycles of a run: each entry is the state after the cycle and
    the outputs of the cycle. *)
Fixpoint run_cycles (es : list Env) (s : State) : list (State * list output) :=
  match es with
  | [] => []
  | e :: es' =>
      let r := update p e s in
      r :: run_cycles es' (fst r)
  end.

Definition is_motor_output (o : output) : bool :=
  match o with
  | output_motor_mask _ _ _ => true
  | set_output_scaled _ _ => false
  end.

(** What C8 asks of one cycle: the tilt servo is sent full forward
    first, and a forward-motor output is among the outputs exactly when
    the slewed tilt stands at 1. *)
Definition binary_cycle_ok (r : State * list output) : Prop :=
  hd_error (snd r) = Some (set_output_scaled k_motor_tilt 1000) /\
  (existsb is_motor_output (snd r) = true <-> current_tilt (fst r) = 1).

End Specification.

(* ------------------------------------------------------------------ *)
(** ** Further notions *)

Section Notions.

Variable p : Params.


(** The [diff_thrust] of motor [i] in [tilt_compensate_angle]. *)
Definition diff_thrust (e : Env) (s : State) (i : nat) : R :=
  get_roll_factor e i * motors_get_yaw e * sin_tilt s * yaw_gain p.

(** Sum of [f] over the tilted motors among [0 .. n-1]. *)
Fixpoint sum_tilted (f : nat -> R) (n : nat) : R :=
  match n with
  | O => 0
  | S n' => sum_tilted f n' + (if is_motor_tilting p n' then f n' else 0)
  end.

(** The five channels of the vectored tilt servos. *)
Definition is_tilt_servo (f : servo_function) : bool :=
  match f with
  | k_tiltMotorLeft | k_tiltMotorRight | k_tiltMotorRear
  | k_tiltMotorRearLeft | k_tiltMotorRearRight => true
  | _ => false
  end.

(** The channel an output writes, if it writes one. *)
Definition written_function (o : output) : option servo_function :=
  match o with
  | set_output_scaled f _ => Some f
  | output_motor_mask _ _ _ => None
  end.

(** A write to a vectored tilt servo, within its range of 1000. *)
Definition tilt_servo_write (o : output) : Prop :=
  match o with
  | set_output_scaled f v => is_tilt_servo f = true /\ 0 <= v <= 1000
  | output_motor_mask _ _ _ => False
  end.

(** A write to the main tilt servo. *)
Definition is_motor_tilt_write (o : output) : bool :=
  match o with
  | set_output_scaled k_motor_tilt _ => true
  | _ => false
  end.

(** A write to one of the vectored tilt servos. *)
Definition is_tilt_servo_write (o : output) : bool :=
  match o with
  | set_output_scaled f _ => is_tilt_servo f
  | output_motor_mask _ _ _ => false
  end.

(** The servo writes among the calls of [bicopter_output]. *)
Fixpoint bicopter_writes (cs : list bicopter_call) : list output :=
  match cs with
  | [] => []
  | call_output o :: cs' => o :: bicopter_writes cs'
  | _ :: cs' => bicopter_writes cs'
  end.

(** Whether [bicopter_output] runs the mixer. *)
Definition runs_mixer (c : bicopter_call) : bool :=
  match c with
  | call_motors_output _ => true
  | _ => false
  end.

End Notions.

(* ------------------------------------------------------------------ *)
(** ** Fixtures: a tilt quadplane with the two front motors tilting *)

Definition front_tilt_params : Params :=
  {| enable := 1;
     tilt_mask := 3;
     max_rate_up_dps := 40;
     max_angle_deg := 45;
     type := TILT_TYPE_CONTINUOUS;
     max_rate_down_dps := 0;
     tilt_yaw_angle := 0;
     fixed_angle := 0;
     fixed_gain := 0 |}.

(** A mask that names no motor of a four motor frame. *)
Definition stray_mask_params : Params :=
  {| enable := 1;
     tilt_mask := 16;
     max_rate_up_dps := 40;
     max_angle_deg := 45;
     type := TILT_TYPE_CONTINUOUS;
     max_rate_down_dps := 0;
     tilt_yaw_angle := 0;
     fixed_angle := 0;
     fixed_gain := 0 |}.

Definition binary_params : Params :=
  {| enable := 1;
     tilt_mask := 3;
     max_rate_up_dps := 40;
     max_angle_deg := 45;
     type := TILT_TYPE_BINARY;
     max_rate_down_dps := 0;
     tilt_yaw_angle := 0;
     fixed_angle := 0;
     fixed_gain := 0 |}.

Definition vectored_params : Params :=
  {| enable := 1;
     tilt_mask := 3;
     max_rate_up_dps := 40;
     max_angle_deg := 45;
     type := TILT_TYPE_VECTORED_YAW;
     max_rate_down_dps := 0;
     tilt_yaw_angle := 5;
     fixed_angle := 0;
     fixed_gain := 0 |}.

(** Armed fixed wing flight at 50 Hz, half throttle, no yaw demand. *)
Definition cruise_env : Env :=
  {| control_mode := mode_other;
     soft_armed := true;
     in_vtol_mode := false;
     assisted_flight := false;
     G_Dt := 0.02;
     rudder_dt := 0;
     get_output_scaled := fun f => match f with k_throttle => 50 | _ => 0 end;
     motors_get_throttle := 0.5;
     motors_get_yaw := 0;
     motors_get_roll := 0;
     get_roll_factor := fun i => if Nat.even i then 0.5 else - 0.5;
     rc_fwd_thr_ch := false;
     forward_throttle_pct := 0;
     transition_state := TRANSITION_DONE;
     throttle_min := 0;
     motor_test_running := false;
     millis := 10000;
     last_armed_change := 2000;
     option_disarmed_tilt := true;
     rudder_control_in := 0;
     rudder_range := 4500;
     FW_vector_throttle_scaling := 1;
     speed_scaler := 1 |}.

(** [e] with another arming state, VTOL flag and clock. *)
Definition at_arming (e : Env) (armed vtol : bool) (now changed : Z) : Env :=
  {| control_mode := control_mode e;
     soft_armed := armed;
     in_vtol_mode := vtol;
     assisted_flight := assisted_flight e;
     G_Dt := G_Dt e;
     rudder_dt := rudder_dt e;
     get_output_scaled := get_output_scaled e;
     motors_get_throttle := motors_get_throttle e;
     motors_get_yaw := motors_get_yaw e;
     motors_get_roll := motors_get_roll e;
     get_roll_factor := get_roll_factor e;
     rc_fwd_thr_ch := rc_fwd_thr_ch e;
     forward_throttle_pct := forward_throttle_pct e;
     transition_state := transition_state e;
     throttle_min := throttle_min e;
     motor_test_running := motor_test_running e;
     millis := now;
     last_armed_change := changed;
     option_disarmed_tilt := option_disarmed_tilt e;
     rudder_control_in := rudder_control_in e;
     rudder_range := rudder_range e;
     FW_vector_throttle_scaling := FW_vector_throttle_scaling e;
     speed_scaler := speed_scaler e |}.

(** On the bench in a VTOL mode, one second after disarming. *)
Definition bench_env : Env := at_arming cruise_env false true 10000 9000.

(** Armed in a VTOL mode. *)
Definition hover_env : Env := at_arming cruise_env true true 10000 2000.

Definition with_tilt (t : R) : State :=
  {| current_tilt := t; current_throttle := 0; motors_active := false |}.

(** A bicopter with 10 degrees of forward travel in VTOL modes. *)
Definition bicopter_params : Params :=
  {| enable := 1;
     tilt_mask := 3;
     max_rate_up_dps := 40;
     max_angle_deg := 45;
     type := TILT_TYPE_BICOPTER;
     max_rate_down_dps := 0;
     tilt_yaw_angle := 10;
     fixed_angle := 0;
     fixed_gain := 0 |}.

(** The mixer asking for a third of the travel, left back and right
    forward. *)
Definition mixed_yaw (f : servo_function) : R :=
  match f with
  | k_tiltMotorLeft => 1500
  | k_tiltMotorRight => - 1500
  | _ => 0
  end.

(** Disarmed in fixed wing mode. *)
Definition parked_env : Env := at_arming cruise_env false false 10000 9000.

(** Disarmed in a VTOL mode, 4500 ms after a change of the arming state
    that came 500 ms before the millisecond counter wrapped. *)
Definition wrapped_bench_env : Env :=
  at_arming cruise_env false true 4000 4294966796.

(** A tilt quadplane whose enable parameter was never set. *)
Definition unset_params : Params := set_enable front_tilt_params 0.

Definition fresh_setup : SetupEnv :=
  {| enable_configured := false;
     motors_matrix := true;
     transition_allocated := true |}.

(** A stand-in for [fixedwing_turn_rate]: proportional to the bank
    angle, inversely to the airspeed. *)
Definition sample_turn_rate (bank_angle_deg airspeed : R) : R :=
  9.8 * bank_angle_deg / airspeed.

(** The tracker 6 ms before the millisecond counter wraps. *)
Definition yaw_before_wrap : YawState :=
  {| transition_yaw_cd := 9000; transition_yaw_set_ms := 4294967290 |}.

(** A 20 degree bank at 20 m/s, no pilot yaw input, read at [now]. *)
Definition banked_at (now : Z) : YawEnv :=
  {| yaw_millis := now;
     pilot_input_yaw_rate_cds := 0;
     ahrs_yaw_sensor := 9100;
     airspeed_estimate := Some 20;
     nav_roll_cd := 2000;
     airspeed_min := 12 |}.

(* ------------------------------------------------------------------ *)
(** ** Proof steps *)

(** Case analysis on every float comparison left in the goal. *)
Ltac cmp_cases :=
  repeat match goal with
         | |- context [Rlt_dec ?a ?b] => destruct (Rlt_dec a b)
         | |- context [Rle_dec ?a ?b] => destruct (Rle_dec a b)
         | H : context [Rlt_dec ?a ?b] |- _ => destruct (Rlt_dec a b)
         | H : context [Rle_dec ?a ?b] |- _ => destruct (Rle_dec a b)
         end.

(** Entry by entry equality of two arrays of reals. *)
Ltac thrust_eq := repeat (apply f_equal2; [lra |]); reflexivity.

(* ------------------------------------------------------------------ *)
(** * Part III: properties

    ** Comparisons and clamps *)

Lemma Rltb_true a b : Rltb a b = true <-> a < b.
Proof. unfold Rltb; destruct (Rlt_dec a b); split; intros; try easy. Qed.

Lemma Rleb_true a b : Rleb a b = true <-> a <= b.
Proof. unfold Rleb; destruct (Rle_dec a b); split; intros; try easy. Qed.

Lemma MAX_ge_l a b : a <= MAX a b.
Proof. unfold MAX; destruct (Rlt_dec b a); lra. Qed.

Lemma MAX_ge_r a b : b <= MAX a b.
Proof. unfold MAX; destruct (Rlt_dec b a); lra. Qed.

Lemma MAX_cases a b : (b < a /\ MAX a b = a) \/ (a <= b /\ MAX a b = b).
Proof. unfold MAX; destruct (Rlt_dec b a); [left | right]; split; lra. Qed.

Lemma constrain_float_cases amt low high :
  (amt < low /\ constrain_float amt low high = low) \/
  (low <= amt /\ high < amt /\ constrain_float amt low high = high) \/
  (low <= amt <= high /\ constrain_float amt low high = amt).
Proof.
  unfold constrain_float.
  destruct (Rlt_dec amt low); [left; split; lra |].
  destruct (Rlt_dec high amt); [right; left | right; right]; repeat split; lra.
Qed.

(** With a well-ordered range the clamp lands in the range. *)
Lemma constrain_float_bounds amt low high :
  low <= high -> low <= constrain_float amt low high <= high.
Proof.
  intros Hlh.
  destruct (constrain_float_cases amt low high) as [[? ->] | [(? & ? & ->) | [? ->]]]; lra.
Qed.

(** Inside the range the clamp returns its argument. *)
Lemma constrain_float_inside amt low high :
  low <= amt <= high -> constrain_float amt low high = amt.
Proof.
  intros H. unfold constrain_float.
  destruct (Rlt_dec amt low); [lra |].
  destruct (Rlt_dec high amt); [lra | reflexivity].
Qed.

(* ------------------------------------------------------------------ *)
(** ** Array writes and motor loops *)

Lemma upd_length i v l : length (upd i v l) = length l.
Proof.
  revert i; induction l as [| t l IH]; intros [| i]; simpl; auto.
Qed.

Lemma nth_upd_same i v l :
  (i < length l)%nat -> nth i (upd i v l) 0 = v.
Proof.
  revert i; induction l as [| t l IH]; intros [| i] Hi; simpl in *; try lia; auto.
  apply IH; lia.
Qed.

Lemma nth_upd_other i j v l : i <> j -> nth j (upd i v l) 0 = nth j l 0.
Proof.
  revert i j; induction l as [| t l IH]; intros [| i] [| j] Hij; simpl;
    try reflexivity; try congruence.
  apply IH; congruence.
Qed.

Lemma upd_outside i v l : (length l <= i)%nat -> upd i v l = l.
Proof.
  revert i; induction l as [| t l IH]; intros [| i] Hi; simpl in *; auto; try lia.
  f_equal; apply IH; lia.
Qed.

(** A write that scales the entry it reads, also past the end, where
    both the read and the write see nothing. *)
Lemma nth_upd_scale i m l : nth i (upd i (nth i l 0 * m) l) 0 = nth i l 0 * m.
Proof.
  destruct (Nat.lt_ge_cases i (length l)) as [Hi | Hi].
  - now apply nth_upd_same.
  - rewrite upd_outside by assumption.
    rewrite nth_overflow by assumption. ring.
Qed.

Lemma for_motors_S {A : Type} n (body : A -> nat -> A) a :
  for_motors (S n) body a = body (for_motors n body a) n.
Proof.
  unfold for_motors. rewrite seq_S, fold_left_app. reflexivity.
Qed.

Lemma Forall_nth_R (P : R -> Prop) (l : list R) :
  (forall i, (i < length l)%nat -> P (nth i l 0)) -> Forall P l.
Proof. intros H. apply Forall_nth. intros i d Hi. rewrite (nth_indep l d 0 Hi). auto. Qed.

Lemma Forall_nth_R_inv (P : R -> Prop) (l : list R) i :
  Forall P l -> (i < length l)%nat -> P (nth i l 0).
Proof. intros H Hi. now apply Forall_nth. Qed.

Section CompensateFacts.

Variable p : Params.
Variable e : Env.
Variable s : State.

Lemma count_tilted_S n :
  count_tilted p (S n) =
  (count_tilted p n + if is_motor_tilting p n then 1 else 0)%nat.
Proof.
  unfold count_tilted. rewrite seq_S, filter_app, length_app. simpl.
  destruct (is_motor_tilting p n); reflexivity.
Qed.

Lemma count_tilted_le n : (count_tilted p n <= n)%nat.
Proof.
  induction n as [| n IH]; [reflexivity |].
  rewrite count_tilted_S. destruct (is_motor_tilting p n); lia.
Qed.

Lemma count_tilted_zero n :
  count_tilted p n = O <-> forall i, (i < n)%nat -> is_motor_tilting p i = false.
Proof.
  induction n as [| n IH].
  - split; [intros _ i Hi; lia | reflexivity].
  - rewrite count_tilted_S. split.
    + intros H i Hi.
      destruct (is_motor_tilting p n) eqn:Hn; [lia |].
      destruct (Nat.eq_dec i n) as [-> | Hne]; [assumption |].
      apply IH; lia.
    + intros H. rewrite (H n) by lia.
      rewrite Nat.add_0_r. apply IH. intros i Hi. apply H. lia.
Qed.

Lemma count_tilted_pos n :
  count_tilted p n <> O <->
  exists i, (i < n)%nat /\ is_motor_tilting p i = true.
Proof.
  induction n as [| n IH].
  - split; [intros H; now contradiction H | intros (i & Hi & _); lia].
  - rewrite count_tilted_S. split.
    + intros H. destruct (is_motor_tilting p n) eqn:Hn.
      * exists n. split; [lia | assumption].
      * rewrite Nat.add_0_r in H. apply IH in H.
        destruct H as (i & Hi & Ht). exists i. split; [lia | assumption].
    + intros (i & Hi & Ht).
      destruct (Nat.eq_dec i n) as [-> | Hne].
      * rewrite Ht. lia.
      * assert (count_tilted p n <> O) by (apply IH; exists i; split; [lia | assumption]).
        lia.
Qed.

(** *** First loop *)

Lemma apply_factors_S thrust n ntm tm :
  apply_factors p thrust (S n) ntm tm =
  apply_factor p ntm tm (apply_factors p thrust n ntm tm) n.
Proof. unfold apply_factors. apply for_motors_S. Qed.

Lemma apply_factors_length thrust n ntm tm :
  length (fa_thrust (apply_factors p thrust n ntm tm)) = length thrust.
Proof.
  induction n as [| n IH]; [reflexivity |].
  rewrite apply_factors_S. unfold apply_factor.
  destruct (is_motor_tilting p n); simpl; now rewrite upd_length.
Qed.

Lemma apply_factors_nth thrust n ntm tm i :
  nth i (fa_thrust (apply_factors p thrust n ntm tm)) 0 =
  if (i <? n)%nat
  then nth i thrust 0 * (if is_motor_tilting p i then tm else ntm)
  else nth i thrust 0.
Proof.
  induction n as [| n IH]; [reflexivity |].
  rewrite apply_factors_S.
  set (a := apply_factors p thrust n ntm tm) in *.
  assert (Hn : nth n (fa_thrust a) 0 = nth n thrust 0).
  { clear IH. subst a.
    assert (H : forall k j, (k <= j)%nat ->
              nth j (fa_thrust (apply_factors p thrust k ntm tm)) 0 = nth j thrust 0).
    { induction k as [| k IHk]; intros j Hj; [reflexivity |].
      rewrite apply_factors_S. unfold apply_factor.
      destruct (is_motor_tilting p k); simpl;
        (rewrite nth_upd_other by lia); apply IHk; lia. }
    apply H; lia. }
  destruct (Nat.eq_dec i n) as [-> | Hne].
  - replace (n <? S n)%nat with true by (symmetry; apply Nat.ltb_lt; lia).
    unfold apply_factor.
    destruct (is_motor_tilting p n); simpl; rewrite nth_upd_scale, Hn; reflexivity.
  - assert (Hstep : nth i (fa_thrust (apply_factor p ntm tm a n)) 0
                    = nth i (fa_thrust a) 0).
    { unfold apply_factor.
      destruct (is_motor_tilting p n); simpl; apply nth_upd_other; congruence. }
    rewrite Hstep, IH.
    destruct (i <? n)%nat eqn:Hlt.
    + apply Nat.ltb_lt in Hlt.
      replace (i <? S n)%nat with true by (symmetry; apply Nat.ltb_lt; lia).
      reflexivity.
    + apply Nat.ltb_ge in Hlt.
      replace (i <? S n)%nat with false by (symmetry; apply Nat.ltb_ge; lia).
      reflexivity.
Qed.

(** [num_motors] is a [uint8_t], so the [uint8_t] count cannot wrap. *)
Lemma apply_factors_count thrust n ntm tm :
  (n <= 255)%nat ->
  tilt_count (apply_factors p thrust n ntm tm) = count_tilted p n.
Proof.
  induction n as [| n IH]; intros Hn; [reflexivity |].
  rewrite apply_factors_S, count_tilted_S. unfold apply_factor.
  pose proof (count_tilted_le n) as Hle.
  destruct (is_motor_tilting p n); cbn [negb tilt_count].
  - rewrite IH by lia. rewrite Nat.mod_small; lia.
  - rewrite IH by lia. lia.
Qed.

Lemma avg_tilt_thrust_none thrust n ntm tm :
  (n <= 255)%nat ->
  avg_tilt_thrust (apply_factors p thrust n ntm tm) = None <->
  forall i, (i < n)%nat -> is_motor_tilting p i = false.
Proof.
  intros Hn. rewrite <- count_tilted_zero.
  unfold avg_tilt_thrust. rewrite apply_factors_count by assumption.
  destruct (count_tilted p n); split; intros; congruence.
Qed.

(** *** Second loop *)

Lemma equalise_S avg thrust n :
  equalise p e s avg thrust (S n) =
  equalise_step p e s avg (equalise p e s avg thrust n) n.
Proof. unfold equalise. apply for_motors_S. Qed.

(** Without a tilted motor the loop neither reads the average nor
    writes the array. *)
Lemma equalise_no_tilted avg thrust n :
  (forall i, (i < n)%nat -> is_motor_tilting p i = false) ->
  equalise p e s avg thrust n = Some (thrust, 0).
Proof.
  induction n as [| n IH]; intros H; [reflexivity |].
  rewrite equalise_S, IH by (intros i Hi; apply H; lia).
  simpl. rewrite (H n) by lia. reflexivity.
Qed.

(** With an average the loop completes; [largest_tilted] is not
    negative and bounds every tilted motor, all other entries are as
    they were. *)
Lemma equalise_some q thrust n :
  exists thrust' largest,
    equalise p e s (Some q) thrust n = Some (thrust', largest) /\
    length thrust' = length thrust /\
    0 <= largest /\
    (forall i, (i < n)%nat -> is_motor_tilting p i = true ->
               nth i thrust' 0 <= largest) /\
    (forall i, is_motor_tilting p i = false \/ (n <= i)%nat ->
               nth i thrust' 0 = nth i thrust 0).
Proof.
  induction n as [| n (th & L & Heq & Hlen & HL & Htilt & Hrest)].
  - exists thrust, 0. repeat split; try reflexivity; try lra.
    intros i Hi; lia.
  - rewrite equalise_S, Heq. simpl.
    destruct (is_motor_tilting p n) eqn:Hn.
    + unfold equalise_motor.
      set (t1 := upd n _ th).
      set (t2 := upd n _ t1).
      exists t2, (MAX L (nth n t2 0)).
      split; [reflexivity |].
      split; [subst t2 t1; now rewrite !upd_length |].
      split; [pose proof (MAX_ge_l L (nth n t2 0)); lra |].
      split.
      * intros i Hi Hti.
        destruct (Nat.eq_dec i n) as [-> | Hne]; [apply MAX_ge_r |].
        apply Rle_trans with L; [| apply MAX_ge_l].
        replace (nth i t2 0) with (nth i th 0)
          by (subst t2 t1; now rewrite !nth_upd_other by congruence).
        apply Htilt; [lia | assumption].
      * intros i Hi.
        assert (Hne : n <> i) by (destruct Hi as [Hi | Hi]; [congruence | lia]).
        subst t2 t1. rewrite !nth_upd_other by assumption.
        apply Hrest. destruct Hi; [left; assumption | right; lia].
    + exists th, L. repeat split; auto.
      * intros i Hi Hti.
        destruct (Nat.eq_dec i n) as [-> | Hne]; [congruence |].
        apply Htilt; [lia | assumption].
      * intros i Hi. apply Hrest. destruct Hi; [left; assumption | right; lia].
Qed.

(** *** Final rescale *)

Lemma rescale_loop_length n sc thrust :
  length (for_motors n (fun th i => upd i (nth i th 0 * sc) th) thrust)
  = length thrust.
Proof.
  induction n as [| n IH]; [reflexivity |].
  rewrite for_motors_S, upd_length. exact IH.
Qed.

Lemma rescale_loop_nth n sc thrust i :
  nth i (for_motors n (fun th i => upd i (nth i th 0 * sc) th) thrust) 0 =
  if (i <? n)%nat then nth i thrust 0 * sc else nth i thrust 0.
Proof.
  revert i. induction n as [| n IH]; intros i; [reflexivity |].
  rewrite for_motors_S.
  destruct (Nat.eq_dec i n) as [-> | Hne].
  - rewrite nth_upd_scale, IH, Nat.ltb_irrefl.
    replace (n <? S n)%nat with true by (symmetry; apply Nat.ltb_lt; lia).
    reflexivity.
  - rewrite nth_upd_other by congruence. rewrite IH.
    destruct (i <? n)%nat eqn:Hlt.
    + apply Nat.ltb_lt in Hlt.
      replace (i <? S n)%nat with true by (symmetry; apply Nat.ltb_lt; lia).
      reflexivity.
    + apply Nat.ltb_ge in Hlt.
      replace (i <? S n)%nat with false by (symmetry; apply Nat.ltb_ge; lia).
      reflexivity.
Qed.

Lemma rescale_length n a : length (rescale n a) = length (fst a).
Proof.
  destruct a as [thrust L]. unfold rescale. simpl.
  destruct (Rlt_dec 1 L); [apply rescale_loop_length | reflexivity].
Qed.

Lemma rescale_nth n thrust L i :
  nth i (rescale n (thrust, L)) 0 =
  if Rlt_dec 1 L
  then (if (i <? n)%nat then nth i thrust 0 * (1 / L) else nth i thrust 0)
  else nth i thrust 0.
Proof.
  unfold rescale. destruct (Rlt_dec 1 L); [apply rescale_loop_nth | reflexivity].
Qed.

(** *** The routine as a whole *)

(** [thrust_preclip] always has a value: the average is missing only
    when no motor reads it. *)
Lemma thrust_preclip_defined thrust n ntm tm :
  (n <= 255)%nat ->
  exists pre largest,
    thrust_preclip p e s thrust n ntm tm = Some (pre, largest) /\
    length pre = length thrust /\
    0 <= largest /\
    (forall i, (i < n)%nat -> is_motor_tilting p i = true ->
               nth i pre 0 <= largest) /\
    (forall i, is_motor_tilting p i = false \/ (n <= i)%nat ->
               nth i pre 0 =
               nth i (fa_thrust (apply_factors p thrust n ntm tm)) 0).
Proof.
  intros Hn. unfold thrust_preclip.
  set (a := apply_factors p thrust n ntm tm).
  destruct (avg_tilt_thrust a) as [q |] eqn:Havg.
  - destruct (equalise_some q (fa_thrust a) n)
      as (pre & L & Heq & Hlen & HL & Htilt & Hrest).
    exists pre, L. repeat split; auto.
    subst a. now rewrite Hlen, apply_factors_length.
  - subst a.
    pose proof (proj1 (avg_tilt_thrust_none thrust n ntm tm Hn) Havg) as Hnone.
    clear Havg. rename Hnone into Havg.
    rewrite equalise_no_tilted by assumption.
    eexists _, _. split; [reflexivity |].
    split; [apply apply_factors_length |].
    split; [lra |].
    split; [| reflexivity].
    intros i Hi Hti. rewrite Havg in Hti by assumption. discriminate.
Qed.

End CompensateFacts.

Section CompensateRoutine.

Variable p : Params.
Variable e : Env.
Variable s : State.

(** When no multiplier of the non-tilted motors is above one in
    magnitude, thrusts that come in within [0, 1] go out at most 1. *)
Lemma tilt_compensate_angle_le_1 thrust n ntm tm :
  (n <= 255)%nat ->
  -1 <= ntm <= 1 ->
  Forall (fun t => 0 <= t <= 1) thrust ->
  exists out,
    tilt_compensate_angle p e s thrust n ntm tm = Some out /\
    length out = length thrust /\
    Forall (fun t => t <= 1) out.
Proof.
  intros Hn Hm Hin.
  destruct (thrust_preclip_defined p e s thrust n ntm tm Hn)
    as (pre & L & Hpre & Hlen & HL & Htilt & Hrest).
  unfold tilt_compensate_angle. rewrite Hpre. simpl option_map.
  exists (rescale n (pre, L)).
  split; [reflexivity |].
  assert (Hlen' : length (rescale n (pre, L)) = length thrust)
    by (rewrite rescale_length; exact Hlen).
  split; [exact Hlen' |].
  apply Forall_nth_R. intros i Hi. rewrite Hlen' in Hi.
  pose proof (Forall_nth_R_inv _ _ i Hin Hi) as Hti. simpl in Hti.
  (* the entry before the rescale *)
  assert (Hpre_i : nth i pre 0 <= 1 \/
                   ((i < n)%nat /\ nth i pre 0 <= L)).
  { destruct (Nat.lt_ge_cases i n) as [Hlt | Hge].
    - destruct (is_motor_tilting p i) eqn:Hmt.
      + right. split; [assumption | now apply Htilt].
      + left. rewrite Hrest by (left; assumption).
        rewrite apply_factors_nth, Hmt.
        replace (i <? n)%nat with true by (symmetry; now apply Nat.ltb_lt).
        nra.
    - left. rewrite Hrest by (right; assumption).
      rewrite apply_factors_nth.
      replace (i <? n)%nat with false by (symmetry; now apply Nat.ltb_ge).
      lra. }
  rewrite rescale_nth.
  destruct (Rlt_dec 1 L) as [Hsat | Hnosat].
  - assert (Hsc : 0 < 1 / L < 1).
    { split.
      - apply Rdiv_lt_0_compat; lra.
      - apply Rmult_lt_reg_r with L; [lra |]. field_simplify; lra. }
    assert (HscL : L * (1 / L) = 1) by (field; lra).
    destruct (i <? n)%nat eqn:Hin_n.
    + destruct Hpre_i as [H1 | [_ HleL]].
      * destruct (Rle_lt_dec (nth i pre 0) 0); nra.
      * apply Rle_trans with (L * (1 / L)); [| lra].
        apply Rmult_le_compat_r; lra.
    + destruct Hpre_i as [H1 | [Hlt _]]; [lra |].
      apply Nat.ltb_ge in Hin_n. lia.
  - destruct Hpre_i as [H1 | [_ HleL]]; lra.
Qed.

(** The routine has a value on every array. *)
Lemma tilt_compensate_angle_defined thrust n ntm tm :
  (n <= 255)%nat ->
  exists out, tilt_compensate_angle p e s thrust n ntm tm = Some out.
Proof.
  intros Hn.
  destruct (thrust_preclip_defined p e s thrust n ntm tm Hn)
    as (pre & L & Hpre & _).
  unfold tilt_compensate_angle. rewrite Hpre. simpl. eauto.
Qed.

Lemma tilt_compensate_defined thrust n :
  (n <= 255)%nat ->
  exists out, tilt_compensate p e s thrust n = Some out.
Proof.
  intros Hn. unfold tilt_compensate.
  destruct (Rle_dec (current_tilt s) 0); [eauto |].
  destruct (in_vtol_mode e); now apply tilt_compensate_angle_defined.
Qed.

(** Without a tilted motor among the first [n], the routine only
    applies the non-tilted multiplier. *)
Lemma tilt_compensate_angle_no_tilted thrust n ntm tm :
  (forall i, (i < n)%nat -> is_motor_tilting p i = false) ->
  tilt_compensate_angle p e s thrust n ntm tm =
  Some (fa_thrust (apply_factors p thrust n ntm tm)).
Proof.
  intros H. unfold tilt_compensate_angle, thrust_preclip.
  rewrite equalise_no_tilted by assumption. simpl.
  destruct (Rlt_dec 1 0); [lra | reflexivity].
Qed.

End CompensateRoutine.

(* ------------------------------------------------------------------ *)
(** ** The slew limiter and whole cycles *)

Section TiltFacts.

Variable p : Params.

Lemma tilt_rate_nonneg e up :
  0 <= max_rate_up_dps p -> 0 <= tilt_rate p e up.
Proof.
  intros Hup. unfold tilt_rate, Rleb.
  destruct (Rle_dec (max_rate_down_dps p) 0) as [Hd | Hd];
    destruct up, (tilt_type_eqb (type p) TILT_TYPE_BINARY), (fast_tilt e);
    simpl; try lra;
    match goal with
    | |- 0 <= MAX ?a 90 => pose proof (MAX_ge_r a 90); lra
    end.
Qed.

Lemma tilt_max_change_nonneg e up :
  0 <= max_rate_up_dps p -> 0 <= G_Dt e -> 0 <= tilt_max_change p e up.
Proof.
  intros Hup Hdt. unfold tilt_max_change.
  pose proof (tilt_rate_nonneg e up Hup) as Hr.
  apply Rmult_le_pos; [apply Rmult_le_pos; assumption |].
  lra.
Qed.

Lemma slew_current_tilt e s newtilt :
  current_tilt (fst (slew p e s newtilt)) =
  let max_change := tilt_max_change p e (Rltb newtilt (current_tilt s)) in
  constrain_float newtilt (current_tilt s - max_change) (current_tilt s + max_change).
Proof. reflexivity. Qed.

Lemma binary_slew_current_tilt e s forward :
  current_tilt (fst (binary_slew p e s forward)) =
  let max_change := tilt_max_change p e (negb forward) in
  constrain_float
    (if forward then current_tilt s + max_change else current_tilt s - max_change)
    0 1.
Proof. destruct forward; reflexivity. Qed.

Lemma slew_step_bounded e s newtilt :
  0 <= max_rate_up_dps p -> 0 <= G_Dt e ->
  Rabs (current_tilt (fst (slew p e s newtilt)) - current_tilt s)
  <= tilt_max_change p e (Rltb newtilt (current_tilt s)).
Proof.
  intros Hup Hdt. rewrite slew_current_tilt. cbv zeta.
  pose proof (tilt_max_change_nonneg e (Rltb newtilt (current_tilt s)) Hup Hdt) as Hmc.
  set (mc := tilt_max_change p e (Rltb newtilt (current_tilt s))) in *.
  apply Rabs_le.
  destruct (constrain_float_cases newtilt (current_tilt s - mc) (current_tilt s + mc))
    as [[? ->] | [(? & ? & ->) | [? ->]]]; lra.
Qed.

Lemma binary_slew_step_bounded e s forward :
  0 <= max_rate_up_dps p -> 0 <= G_Dt e ->
  0 <= current_tilt s <= 1 ->
  Rabs (current_tilt (fst (binary_slew p e s forward)) - current_tilt s)
  <= tilt_max_change p e (negb forward).
Proof.
  intros Hup Hdt Hs. rewrite binary_slew_current_tilt. cbv zeta.
  pose proof (tilt_max_change_nonneg e (negb forward) Hup Hdt) as Hmc.
  set (mc := tilt_max_change p e (negb forward)) in *.
  apply Rabs_le.
  destruct forward.
  - destruct (constrain_float_cases (current_tilt s + mc) 0 1)
      as [[? ->] | [(? & ? & ->) | [? ->]]]; lra.
  - destruct (constrain_float_cases (current_tilt s - mc) 0 1)
      as [[? ->] | [(? & ? & ->) | [? ->]]]; lra.
Qed.

Lemma slew_in_range e s newtilt :
  0 <= max_rate_up_dps p -> 0 <= G_Dt e ->
  0 <= newtilt <= 1 ->
  0 <= current_tilt s <= 1 ->
  0 <= current_tilt (fst (slew p e s newtilt)) <= 1.
Proof.
  intros Hup Hdt Ht Hs. rewrite slew_current_tilt. cbv zeta.
  pose proof (tilt_max_change_nonneg e (Rltb newtilt (current_tilt s)) Hup Hdt) as Hmc.
  set (mc := tilt_max_change p e (Rltb newtilt (current_tilt s))) in *.
  destruct (constrain_float_cases newtilt (current_tilt s - mc) (current_tilt s + mc))
    as [[? ->] | [(? & ? & ->) | [? ->]]]; lra.
Qed.

Lemma binary_slew_in_range e s forward :
  0 <= current_tilt (fst (binary_slew p e s forward)) <= 1.
Proof.
  rewrite binary_slew_current_tilt. cbv zeta.
  apply constrain_float_bounds. lra.
Qed.

Lemma apply_tilt_op_in_range s o :
  0 <= max_rate_up_dps p -> tilt_op_ok o ->
  0 <= current_tilt s <= 1 ->
  0 <= current_tilt (apply_tilt_op p s o) <= 1.
Proof.
  intros Hup Hok Hs. destruct o as [e t | e f]; simpl.
  - destruct Hok as [Hdt Ht]. now apply slew_in_range.
  - apply binary_slew_in_range.
Qed.

Lemma fold_tilt_ops_in_range ops :
  0 <= max_rate_up_dps p -> Forall tilt_op_ok ops ->
  forall s, 0 <= current_tilt s <= 1 ->
            0 <= current_tilt (fold_left (apply_tilt_op p) ops s) <= 1.
Proof.
  intros Hup Hok. induction Hok as [| o ops Ho _ IH]; intros s Hs; simpl.
  - exact Hs.
  - apply IH. now apply apply_tilt_op_in_range.
Qed.

(** Every branch of [continuous_update] ends in one [slew]. *)
Lemma continuous_update_current_tilt e s :
  current_tilt (fst (continuous_update p e s)) =
  current_tilt (fst (slew p e s (tilt_target p e))).
Proof.
  unfold continuous_update, tilt_target.
  destruct (negb (in_vtol_mode e) && (negb (soft_armed e) || negb (assisted_flight e))).
  - simpl. destruct (Rltb _ 1), (negb (soft_armed e)); reflexivity.
  - destruct (flight_mode_eqb (control_mode e) mode_qautotune); [reflexivity |].
    destruct (negb (assisted_flight e) && _).
    + destruct (negb (rc_fwd_thr_ch e)); reflexivity.
    + destruct (assisted_flight e && _); reflexivity.
Qed.

Lemma binary_update_current_tilt e s :
  current_tilt (fst (binary_update p e s)) =
  current_tilt (fst (binary_slew p e s (negb (in_vtol_mode e)))).
Proof.
  unfold binary_update. destruct (in_vtol_mode e); reflexivity.
Qed.

(** What [update] does to [current_tilt]. *)
Lemma update_current_tilt e s :
  current_tilt (fst (update p e s)) =
  if negb (enabled p) || (tilt_mask p =? 0)%Z then current_tilt s
  else if tilt_type_eqb (type p) TILT_TYPE_BINARY
       then current_tilt (fst (binary_slew p e s (negb (in_vtol_mode e))))
       else current_tilt (fst (slew p e s (tilt_target p e))).
Proof.
  unfold update.
  destruct (negb (enabled p) || (tilt_mask p =? 0)%Z); [reflexivity |].
  destruct (tilt_type_eqb (type p) TILT_TYPE_BINARY).
  - rewrite <- binary_update_current_tilt.
    destruct (binary_update p e s); reflexivity.
  - rewrite <- continuous_update_current_tilt.
    destruct (continuous_update p e s); reflexivity.
Qed.

(** A whole cycle moves the tilt by at most the step of its direction. *)
Lemma update_step_bounded e s :
  0 <= max_rate_up_dps p -> 0 <= G_Dt e ->
  0 <= current_tilt s <= 1 ->
  Rabs (current_tilt (fst (update p e s)) - current_tilt s)
  <= tilt_max_change p e (cycle_moves_up p e s).
Proof.
  intros Hup Hdt Hs. rewrite update_current_tilt. unfold cycle_moves_up.
  destruct (negb (enabled p) || (tilt_mask p =? 0)%Z).
  - replace (current_tilt s - current_tilt s) with 0 by ring.
    rewrite Rabs_R0. now apply tilt_max_change_nonneg.
  - destruct (tilt_type_eqb (type p) TILT_TYPE_BINARY).
    + rewrite <- (negb_involutive (in_vtol_mode e)) at 2.
      now apply binary_slew_step_bounded.
    + now apply slew_step_bounded.
Qed.

(** A whole cycle keeps the tilt in [0, 1] when the policy's target is
    in [0, 1]. *)
Lemma update_in_range e s :
  0 <= max_rate_up_dps p -> 0 <= G_Dt e ->
  0 <= tilt_target p e <= 1 ->
  0 <= current_tilt s <= 1 ->
  0 <= current_tilt (fst (update p e s)) <= 1.
Proof.
  intros Hup Hdt Ht Hs. rewrite update_current_tilt.
  destruct (negb (enabled p) || (tilt_mask p =? 0)%Z); [exact Hs |].
  destruct (tilt_type_eqb (type p) TILT_TYPE_BINARY).
  - apply binary_slew_in_range.
  - now apply slew_in_range.
Qed.

(** With a forward throttle input in percent and [Q_TILT_MAX] at most
    90 degrees, every target of the policy is in [0, 1]. *)
Lemma tilt_target_in_range e :
  0 <= forward_throttle_pct e <= 100 ->
  0 <= max_angle_deg p <= 90 ->
  0 <= tilt_target p e <= 1.
Proof.
  intros Hpct Hmax. unfold tilt_target.
  destruct (negb (in_vtol_mode e) && _); [lra |].
  destruct (flight_mode_eqb (control_mode e) mode_qautotune); [lra |].
  destruct (negb (assisted_flight e) && _).
  - destruct (negb (rc_fwd_thr_ch e)); lra.
  - destruct (assisted_flight e && _); [lra |].
    pose proof (constrain_float_bounds
                  ((get_output_scaled e k_throttle - MAX (throttle_min e) 0) / 50)
                  0 1 ltac:(lra)) as Hc.
    set (c := constrain_float _ 0 1) in *.
    split.
    + apply Rmult_le_pos; [apply Rmult_le_pos; lra | lra].
    + assert (c * max_angle_deg p <= 1 * 90) by (apply Rmult_le_compat; lra).
      lra.
Qed.

(** Over a run of cycles from the initial state the tilt stays in
    [0, 1], for a forward throttle input in percent and [Q_TILT_MAX]
    at most 90 degrees. *)
Lemma run_cycles_in_range es :
  0 <= max_rate_up_dps p ->
  0 <= max_angle_deg p <= 90 ->
  Forall (fun e => 0 <= G_Dt e /\ 0 <= forward_throttle_pct e <= 100) es ->
  Forall (fun r => 0 <= current_tilt (fst r) <= 1) (run_cycles p es initial_state).
Proof.
  intros Hup Hmax Hes.
  assert (H0 : 0 <= current_tilt initial_state <= 1) by (simpl; lra).
  revert H0. generalize initial_state.
  induction Hes as [| e es [Hdt Hpct] _ IH]; intros s Hs; simpl.
  - constructor.
  - assert (Hs' : 0 <= current_tilt (fst (update p e s)) <= 1).
    { apply update_in_range; auto. now apply tilt_target_in_range. }
    constructor; [exact Hs' | now apply IH].
Qed.

(** *** The binary type in fixed wing mode *)

Lemma binary_update_fixed_wing e s :
  in_vtol_mode e = false ->
  binary_update p e s =
  let s' := fst (binary_slew p e (set_motors_active s true) true) in
  (s', set_output_scaled k_motor_tilt 1000
       :: if Rleb 1 (current_tilt s') then [binary_motor_output p e] else []).
Proof.
  intros Hfw. unfold binary_update. rewrite Hfw. reflexivity.
Qed.

Lemma binary_cycle_fixed_wing e s :
  enabled p = true -> tilt_mask p <> 0%Z ->
  type p = TILT_TYPE_BINARY ->
  in_vtol_mode e = false ->
  binary_cycle_ok (update p e s).
Proof.
  intros Hen Hmask Hty Hfw.
  unfold update. rewrite Hen, Hty.
  apply Z.eqb_neq in Hmask. rewrite Hmask. simpl.
  rewrite (binary_update_fixed_wing e s Hfw). cbv zeta.
  set (s' := fst (binary_slew p e (set_motors_active s true) true)).
  pose proof (binary_slew_in_range e (set_motors_active s true) true) as Hr.
  fold s' in Hr. clearbody s'.
  unfold binary_cycle_ok, Rleb.
  destruct (Rle_dec 1 (current_tilt s')); simpl;
    (split; [reflexivity |]); split; intros; try lra;
    try reflexivity; try discriminate.
Qed.

(** Entered with [current_tilt = 0] and a step short of the whole
    travel, the first cycle writes the servo command and nothing else. *)
Lemma binary_first_cycle e :
  enabled p = true -> tilt_mask p <> 0%Z ->
  type p = TILT_TYPE_BINARY ->
  in_vtol_mode e = false ->
  tilt_max_change p e false < 1 ->
  snd (update p e initial_state) = [set_output_scaled k_motor_tilt 1000].
Proof.
  intros Hen Hmask Hty Hfw Hmc.
  unfold update. rewrite Hen, Hty.
  apply Z.eqb_neq in Hmask. rewrite Hmask. simpl.
  rewrite (binary_update_fixed_wing e initial_state Hfw). cbv zeta.
  rewrite binary_slew_current_tilt. simpl.
  replace (Rleb 1 (constrain_float (0 + tilt_max_change p e false) 0 1)) with false;
    [reflexivity |].
  unfold Rleb.
  destruct (constrain_float_cases (0 + tilt_max_change p e false) 0 1)
    as [[? ->] | [(? & ? & ->) | [? ->]]];
    match goal with |- context [Rle_dec ?a ?b] => destruct (Rle_dec a b) end;
    try reflexivity; lra.
Qed.

(** *** The disarmed ground test *)

(** The gate is a real one: disarmed, with the option set and more
    than the delay behind, [vectoring] is the ground test. *)
Lemma ground_test_active e s :
  soft_armed e = false -> option_disarmed_tilt e = true ->
  (TILT_DELAY_MS < since_armed_change e)%Z ->
  vectoring p e s = ground_test p e s.
Proof.
  intros Harm Hopt Hlate. unfold vectoring. rewrite Harm, Hopt. simpl.
  apply Z.ltb_lt in Hlate. now rewrite Hlate.
Qed.

(** A clock that has run [elapsed] ms since the arming state changed
    reads back [elapsed], also across the wrap of the counter. *)
Lemma since_armed_change_elapsed e elapsed :
  (0 <= elapsed < 2 ^ 32)%Z ->
  millis e = ((last_armed_change e + elapsed) mod 2 ^ 32)%Z ->
  since_armed_change e = elapsed.
Proof.
  intros Hel Hnow. unfold since_armed_change. rewrite Hnow.
  rewrite Zminus_mod_idemp_l.
  replace (last_armed_change e + elapsed - last_armed_change e)%Z
    with elapsed by ring.
  now apply Z.mod_small.
Qed.

End TiltFacts.

(* ------------------------------------------------------------------ *)
(** ** The thrust compensation callback *)

Section CompensateTheorems.

Variable p : Params.
Variable e : Env.
Variable s : State.

(** C1. Thrust Compensator never produces a motor thrust above 1.0:
    for every call of the callback on an array whose entries are all
    in [0, 1], the call returns an array of the same length with every
    entry at most 1.0. *)
Theorem tilt_compensate_le_1 thrust n :
  (n <= 255)%nat ->
  Forall (fun t => 0 <= t <= 1) thrust ->
  exists out,
    tilt_compensate p e s thrust n = Some out /\
    length out = length thrust /\
    Forall (fun t => t <= 1) out.
Proof.
  intros Hn Hin. unfold tilt_compensate.
  destruct (Rle_dec (current_tilt s) 0).
  - exists thrust. repeat split.
    eapply Forall_impl; [| exact Hin]. simpl. intros; lra.
  - destruct (in_vtol_mode e).
    + apply tilt_compensate_angle_le_1; auto.
      apply COS_bound.
    + apply tilt_compensate_angle_le_1; auto. lra.
Qed.

(** C4. With [current_tilt == 0] the callback is a no-op: for every
    array and motor count the output array is the input array. *)
Theorem tilt_compensate_zero_tilt_noop thrust n :
  current_tilt s = 0 ->
  tilt_compensate p e s thrust n = Some thrust.
Proof.
  intros H0. unfold tilt_compensate.
  destruct (Rle_dec (current_tilt s) 0); [reflexivity | lra].
Qed.

(** C5. When the saturation rescale triggers ([largest_tilted] above
    1.0), every one of the [num_motors] motors, tilted or not, is
    multiplied by the same [1 / largest_tilted], so the ratio of any
    two motors with a nonzero denominator is the ratio they had before
    the rescale. *)
Theorem rescale_preserves_ratios thrust n ntm tm pre largest :
  thrust_preclip p e s thrust n ntm tm = Some (pre, largest) ->
  1 < largest ->
  exists out,
    tilt_compensate_angle p e s thrust n ntm tm = Some out /\
    (forall i, (i < n)%nat -> nth i out 0 = nth i pre 0 * (1 / largest)) /\
    (forall i j, (i < n)%nat -> (j < n)%nat -> nth j pre 0 <> 0 ->
                 nth i out 0 / nth j out 0 = nth i pre 0 / nth j pre 0).
Proof.
  intros Hpre Hsat.
  unfold tilt_compensate_angle. rewrite Hpre. simpl option_map.
  exists (rescale n (pre, largest)).
  assert (Hscaled : forall i, (i < n)%nat ->
            nth i (rescale n (pre, largest)) 0 = nth i pre 0 * (1 / largest)).
  { intros i Hi. rewrite rescale_nth.
    destruct (Rlt_dec 1 largest); [| lra].
    replace (i <? n)%nat with true by (symmetry; now apply Nat.ltb_lt).
    reflexivity. }
  split; [reflexivity |]. split; [exact Hscaled |].
  intros i j Hi Hj Hnz.
  rewrite (Hscaled i Hi), (Hscaled j Hj).
  field. split; lra.
Qed.

(** C10, as the code has it. The average of the tilted motors is a
    number exactly when one of the first [num_motors] motors is in the
    tilt mask. The routine still has a result on every call: only a
    tilted motor reads the average, and with no tilted motor the result
    is the array with the non-tilted multiplier applied. *)
Theorem avg_tilt_thrust_defined_iff thrust n ntm tm :
  (n <= 255)%nat ->
  (avg_tilt_thrust (apply_factors p thrust n ntm tm) <> None <->
   exists i, (i < n)%nat /\ is_motor_tilting p i = true) /\
  (exists out, tilt_compensate_angle p e s thrust n ntm tm = Some out) /\
  (exists out, tilt_compensate p e s thrust n = Some out) /\
  ((forall i, (i < n)%nat -> is_motor_tilting p i = false) ->
   tilt_compensate_angle p e s thrust n ntm tm =
   Some (fa_thrust (apply_factors p thrust n ntm tm))).
Proof.
  intros Hn. split; [| split; [| split]].
  - rewrite <- count_tilted_pos.
    unfold avg_tilt_thrust. rewrite apply_factors_count by assumption.
    destruct (count_tilted p n); split; intros; congruence.
  - now apply tilt_compensate_angle_defined.
  - now apply tilt_compensate_defined.
  - apply tilt_compensate_angle_no_tilted.
Qed.

End CompensateTheorems.

(* ------------------------------------------------------------------ *)
(** ** Tilt state, slew rates and servo outputs *)

Section TiltTheorems.

Variable p : Params.

(** C2. In every cycle, for the continuous and for the binary slew,
    [current_tilt] moves by at most [rate * G_Dt / 90] from its value
    of the cycle before, [rate] being the rate [tilt_max_change] picks
    for that cycle's direction; so does a whole [update]. The
    configured upward rate and the cycle time are not negative, and the
    binary slew starts from a tilt in [0, 1]. *)
Theorem tilt_step_bounded e s :
  0 <= max_rate_up_dps p -> 0 <= G_Dt e ->
  (forall newtilt,
      Rabs (current_tilt (fst (slew p e s newtilt)) - current_tilt s)
      <= tilt_rate p e (Rltb newtilt (current_tilt s)) * G_Dt e / 90) /\
  (0 <= current_tilt s <= 1 ->
   forall forward,
      Rabs (current_tilt (fst (binary_slew p e s forward)) - current_tilt s)
      <= tilt_rate p e (negb forward) * G_Dt e / 90) /\
  (0 <= current_tilt s <= 1 ->
   Rabs (current_tilt (fst (update p e s)) - current_tilt s)
   <= tilt_rate p e (cycle_moves_up p e s) * G_Dt e / 90).
Proof.
  intros Hup Hdt. split; [| split].
  - intros newtilt. now apply slew_step_bounded.
  - intros Hs forward. now apply binary_slew_step_bounded.
  - intros Hs. now apply update_step_bounded.
Qed.

(** C3. [current_tilt] stays in [0, 1]: from the initial value 0, any
    sequence of continuous slews with targets in [0, 1] and of binary
    slews leaves it in [0, 1]. The configured upward rate and the
    cycle times are not negative. *)
Theorem current_tilt_in_range ops :
  0 <= max_rate_up_dps p -> Forall tilt_op_ok ops ->
  0 <= current_tilt (run_tilt_ops p ops) <= 1.
Proof.
  intros Hup Hok. unfold run_tilt_ops.
  apply fold_tilt_ops_in_range; auto. simpl. lra.
Qed.

(** C6. For a type other than Binary and a move toward cruise: in
    manual mode, or armed outside VTOL mode and assisted flight, the
    rate [tilt_max_change] uses is at least 90 deg/s (and not below the
    configured one); otherwise it is the configured rate unchanged,
    [max_rate_down_dps], or [max_rate_up_dps] when that is 0. *)
Theorem fast_tilt_floor e :
  type p <> TILT_TYPE_BINARY ->
  tilt_max_change p e false = tilt_rate p e false * G_Dt e / 90 /\
  (control_mode e = mode_manual \/
   (soft_armed e = true /\ in_vtol_mode e = false /\ assisted_flight e = false) ->
   90 <= tilt_rate p e false /\
   (max_rate_down_dps p = 0 -> max_rate_up_dps p <= tilt_rate p e false) /\
   (0 < max_rate_down_dps p -> max_rate_down_dps p <= tilt_rate p e false)) /\
  (~ (control_mode e = mode_manual \/
      (soft_armed e = true /\ in_vtol_mode e = false /\ assisted_flight e = false)) ->
   (max_rate_down_dps p = 0 -> tilt_rate p e false = max_rate_up_dps p) /\
   (0 < max_rate_down_dps p -> tilt_rate p e false = max_rate_down_dps p)).
Proof.
  intros Hty.
  assert (Hnb : tilt_type_eqb (type p) TILT_TYPE_BINARY = false)
    by (destruct (type p); try reflexivity; congruence).
  split; [reflexivity |].
  unfold tilt_rate. rewrite Hnb. simpl. split.
  - intros Hfast.
    assert (Hf : fast_tilt e = true).
    { unfold fast_tilt. destruct Hfast as [-> | (-> & -> & ->)]; simpl.
      - reflexivity.
      - apply orb_true_r. }
    rewrite Hf. split; [apply MAX_ge_r |].
    unfold Rleb. split; intros Hd;
      destruct (Rle_dec (max_rate_down_dps p) 0); try lra; apply MAX_ge_l.
  - intros Hslow.
    assert (Hf : fast_tilt e = false).
    { unfold fast_tilt.
      destruct (control_mode e) eqn:Hm; simpl;
        try (exfalso; apply Hslow; left; reflexivity);
        destruct (soft_armed e), (in_vtol_mode e), (assisted_flight e);
        simpl; try reflexivity;
        exfalso; apply Hslow; right; repeat split. }
    rewrite Hf. unfold Rleb. split; intros Hd;
      destruct (Rle_dec (max_rate_down_dps p) 0); try lra; reflexivity.
Qed.

(** C7. The disarmed ground test drives no tilt servo while armed, nor
    while less than 3000 ms have passed since the last change of the
    arming state: armed, [vectoring] is the flight path alone; disarmed
    with the option set and within the delay, it writes nothing. *)
Theorem ground_test_gated e s :
  soft_armed e = true \/ (since_armed_change e < TILT_DELAY_MS)%Z ->
  vectoring p e s =
  if negb (soft_armed e) && option_disarmed_tilt e then []
  else vectoring_flight p e s.
Proof.
  intros H. unfold vectoring.
  destruct H as [-> | Hlt]; [reflexivity |].
  destruct (negb (soft_armed e) && option_disarmed_tilt e); [| reflexivity].
  replace (TILT_DELAY_MS <? since_armed_change e)%Z with false; [reflexivity |].
  symmetry. apply Z.ltb_ge. lia.
Qed.

(** C8. Binary type, fixed wing mode entered with [current_tilt = 0]:
    on the first cycle, and on every later cycle of the run, the tilt
    servo is commanded full forward at once, and the masked
    forward-motor output is produced on exactly the cycles where the
    slew-limited [current_tilt] has reached 1.0. *)
Theorem binary_forward_gating es :
  enabled p = true -> tilt_mask p <> 0%Z ->
  type p = TILT_TYPE_BINARY ->
  Forall (fun e => in_vtol_mode e = false) es ->
  Forall binary_cycle_ok (run_cycles p es initial_state) /\
  (forall e, in_vtol_mode e = false -> tilt_max_change p e false < 1 ->
             snd (update p e initial_state) = [set_output_scaled k_motor_tilt 1000]).
Proof.
  intros Hen Hmask Hty Hfw. split.
  - generalize initial_state.
    induction Hfw as [| e es He _ IH]; intros s; simpl.
    + constructor.
    + constructor; [now apply binary_cycle_fixed_wing | apply IH].
  - intros e He Hmc. now apply binary_first_cycle.
Qed.

(** C9. With [yaw_angle_deg = 5], [fixed_angle_deg = 0] and
    [current_tilt = 0], [zero_out] is 5/95 and the base servo output
    is [zero_out]. *)
Theorem vectored_yaw_base_output s :
  tilt_yaw_angle p = 5 -> fixed_angle p = 0 -> current_tilt s = 0 ->
  zero_out p = 5 / 95 /\
  base_output p s = zero_out p /\
  base_output p s = zero_out p + current_tilt s * (level_out p - zero_out p).
Proof.
  intros Hyaw Hfix Htilt.
  unfold base_output, zero_out, level_out, fixed_tilt_limit, total_angle.
  rewrite Hyaw, Hfix, Htilt.
  repeat split; try field; lra.
Qed.

End TiltTheorems.

(* ------------------------------------------------------------------ *)
(** ** The properties on the fixtures *)

(** Two tilted motors doubled to 1.6 and 1.8, two fixed ones at 0.3,
    half tilt, no yaw demand: the tilted pair is pulled half way to
    its mean 1.7. *)
Example thrust_preclip_saturating :
  thrust_preclip front_tilt_params cruise_env (with_tilt 0.5)
    [0.8; 0.9; 0.3; 0.3] 4 1 2
  = Some ([1.65; 1.75; 0.3; 0.3], 1.75).
Proof.
  unfold thrust_preclip, apply_factors, equalise, for_motors. simpl.
  unfold MAX. cmp_cases; try lra.
  apply f_equal. apply f_equal2; [thrust_eq | lra].
Qed.

Example tilt_compensate_angle_saturating :
  tilt_compensate_angle front_tilt_params cruise_env (with_tilt 0.5)
    [0.8; 0.9; 0.3; 0.3] 4 1 2
  = Some [1.65 / 1.75; 1; 0.3 / 1.75; 0.3 / 1.75].
Proof.
  unfold tilt_compensate_angle. rewrite thrust_preclip_saturating.
  unfold option_map, rescale, for_motors.
  destruct (Rlt_dec 1 1.75); [| lra]. simpl.
  apply f_equal. thrust_eq.
Qed.

(** [rate_up_dps = 40], 50 Hz, tilt 0 and target 1 in a VTOL mode: one
    cycle brings the tilt to 40 * 0.02 / 90. *)
Example slew_one_cycle :
  current_tilt (fst (slew front_tilt_params hover_env (with_tilt 0) 1))
  = 40 * 0.02 / 90.
Proof.
  rewrite slew_current_tilt. simpl.
  unfold tilt_max_change, tilt_rate, fast_tilt, Rltb, Rleb. simpl.
  destruct (Rlt_dec 1 0); [lra |].
  destruct (Rle_dec 0 0); [| lra]. simpl.
  unfold constrain_float. cmp_cases; lra.
Qed.

(** Two tilted motors at 0.9 each, rotors fully forward in a VTOL
    mode, no yaw demand: both stay at 0.9. *)
Example tilt_compensate_equal_pair :
  tilt_compensate front_tilt_params hover_env (with_tilt 1) [0.9; 0.9] 2
  = Some [0.9; 0.9].
Proof.
  unfold tilt_compensate. simpl.
  destruct (Rle_dec 1 0); [lra |].
  unfold tilt_compensate_angle, thrust_preclip, apply_factors, equalise,
    for_motors. simpl.
  unfold MAX. cmp_cases; try lra.
  apply f_equal. thrust_eq.
Qed.

(** Vectored yaw with [Q_TILT_YAW_ANGLE = 5], armed in a VTOL mode at
    zero tilt and without yaw or roll demand: all five tilt servos sit
    at 1000 * 5/95. *)
Example vectoring_zero_tilt :
  vectoring vectored_params hover_env (with_tilt 0)
  = [ set_output_scaled k_tiltMotorLeft (1000 * (5 / 95));
      set_output_scaled k_tiltMotorRight (1000 * (5 / 95));
      set_output_scaled k_tiltMotorRear (1000 * (5 / 95));
      set_output_scaled k_tiltMotorRearLeft (1000 * (5 / 95));
      set_output_scaled k_tiltMotorRearRight (1000 * (5 / 95)) ].
Proof.
  unfold vectoring, vectoring_flight. simpl.
  unfold Rltb. destruct (Rlt_dec (45 / 90) 0); [lra |].
  unfold base_output, zero_out, level_out, fixed_tilt_limit, total_angle. simpl.
  rewrite (constrain_float_inside _ (-1) 1) by lra.
  rewrite !constrain_float_inside by lra.
  repeat (apply f_equal2; [apply f_equal; lra |]); reflexivity.
Qed.

(** Disarmed on the bench with the option set: nothing moves one
    second after disarming, the test runs five seconds after. *)
Example ground_test_after_delay :
  vectoring vectored_params bench_env (with_tilt 0) = [] /\
  vectoring vectored_params (at_arming cruise_env false true 10000 5000) (with_tilt 0)
  = ground_test_vtol vectored_params
      (at_arming cruise_env false true 10000 5000) (with_tilt 0).
Proof. split; reflexivity. Qed.

Lemma tilt_compensate_le_1_witness :
  exists out,
    tilt_compensate front_tilt_params cruise_env (with_tilt 0.5)
      [0.2; 0.9; 1; 0] 4 = Some out /\
    length out = 4%nat /\
    Forall (fun t => t <= 1) out.
Proof.
  apply (tilt_compensate_le_1 front_tilt_params cruise_env (with_tilt 0.5)
           [0.2; 0.9; 1; 0] 4).
  - lia.
  - repeat constructor; lra.
Defined.

Lemma tilt_compensate_zero_tilt_noop_witness :
  tilt_compensate front_tilt_params cruise_env (with_tilt 0)
    [0.2; 0.9; 1; 0] 4 = Some [0.2; 0.9; 1; 0].
Proof.
  apply (tilt_compensate_zero_tilt_noop front_tilt_params cruise_env (with_tilt 0)).
  reflexivity.
Defined.

Lemma rescale_preserves_ratios_witness :
  exists out,
    tilt_compensate_angle front_tilt_params cruise_env (with_tilt 0.5)
      [0.8; 0.9; 0.3; 0.3] 4 1 2 = Some out /\
    nth 2 out 0 / nth 0 out 0 = 0.3 / 1.65.
Proof.
  destruct (rescale_preserves_ratios front_tilt_params cruise_env (with_tilt 0.5)
              [0.8; 0.9; 0.3; 0.3] 4 1 2 [1.65; 1.75; 0.3; 0.3] 1.75)
    as (out & Hout & _ & Hratio).
  - exact thrust_preclip_saturating.
  - lra.
  - exists out. split; [exact Hout |].
    rewrite (Hratio 2%nat 0%nat); simpl; try lia; lra.
Defined.

Lemma avg_tilt_thrust_defined_iff_witness :
  avg_tilt_thrust (apply_factors front_tilt_params [0.8; 0.9; 0.3; 0.3] 4 1 2)
    <> None /\
  exists out,
    tilt_compensate front_tilt_params cruise_env (with_tilt 0.5)
      [0.8; 0.9; 0.3; 0.3] 4 = Some out.
Proof.
  destruct (avg_tilt_thrust_defined_iff front_tilt_params cruise_env (with_tilt 0.5)
              [0.8; 0.9; 0.3; 0.3] 4 1 2) as (Havg & _ & Hout & _).
  - lia.
  - split; [| exact Hout].
    apply Havg. exists 0%nat. split; [lia | reflexivity].
Defined.

(** C10 as stated fails: with [Q_TILT_MASK = 16] on four motors and
    the rotors half way down, no motor of the array tilts and the
    average is not a number, yet the callback returns the array,
    entry for entry as it came in. *)
Lemma result_defined_without_tilted_motor :
  0 < current_tilt (with_tilt 0.5) /\
  forallb (fun i => negb (is_motor_tilting stray_mask_params i)) (seq 0 4) = true /\
  avg_tilt_thrust
    (apply_factors stray_mask_params [0.5; 0.5; 0.5; 0.5] 4 1
       (1 / cos (radians (0.5 * 90)))) = None /\
  tilt_compensate stray_mask_params cruise_env (with_tilt 0.5)
    [0.5; 0.5; 0.5; 0.5] 4 = Some [0.5; 0.5; 0.5; 0.5] /\
  ~ (tilt_compensate stray_mask_params cruise_env (with_tilt 0.5)
       [0.5; 0.5; 0.5; 0.5] 4 <> None ->
     exists i, (i < 4)%nat /\ is_motor_tilting stray_mask_params i = true).
Proof.
  assert (Hout : tilt_compensate stray_mask_params cruise_env (with_tilt 0.5)
                   [0.5; 0.5; 0.5; 0.5] 4 = Some [0.5; 0.5; 0.5; 0.5]).
  { unfold tilt_compensate. simpl.
    destruct (Rle_dec 0.5 0); [lra |].
    destruct (Rlt_dec 0.98 0.5); [lra |].
    unfold tilt_compensate_angle, thrust_preclip, apply_factors, equalise,
      for_motors. simpl.
    destruct (Rlt_dec 1 0); [lra |].
    apply f_equal. thrust_eq. }
  split; [simpl; lra |].
  split; [reflexivity |].
  split; [reflexivity |].
  split; [exact Hout |].
  intros Hclaim.
  destruct Hclaim as (i & Hi & Ht); [rewrite Hout; discriminate |].
  do 4 (destruct i as [| i]; [discriminate Ht |]). lia.
Qed.

Lemma tilt_step_bounded_witness :
  Rabs (current_tilt (fst (slew front_tilt_params hover_env (with_tilt 0) 1))
        - current_tilt (with_tilt 0))
  <= tilt_rate front_tilt_params hover_env (Rltb 1 (current_tilt (with_tilt 0)))
     * G_Dt hover_env / 90 /\
  Rabs (current_tilt (fst (binary_slew binary_params hover_env (with_tilt 1) false))
        - current_tilt (with_tilt 1))
  <= tilt_rate binary_params hover_env (negb false) * G_Dt hover_env / 90 /\
  Rabs (current_tilt (fst (update front_tilt_params cruise_env initial_state))
        - current_tilt initial_state)
  <= tilt_rate front_tilt_params cruise_env
       (cycle_moves_up front_tilt_params cruise_env initial_state)
     * G_Dt cruise_env / 90.
Proof.
  split; [| split].
  - apply (tilt_step_bounded front_tilt_params hover_env (with_tilt 0));
      simpl; lra.
  - apply (tilt_step_bounded binary_params hover_env (with_tilt 1));
      simpl; lra.
  - apply (tilt_step_bounded front_tilt_params cruise_env initial_state);
      simpl; lra.
Defined.

Lemma current_tilt_in_range_witness :
  0 <= current_tilt
         (run_tilt_ops front_tilt_params
            [op_slew hover_env 1; op_slew cruise_env 1;
             op_binary_slew hover_env false]) <= 1.
Proof.
  apply (current_tilt_in_range front_tilt_params).
  - simpl; lra.
  - repeat constructor; simpl; lra.
Defined.

Lemma fast_tilt_floor_witness :
  90 <= tilt_rate front_tilt_params cruise_env false /\
  tilt_rate front_tilt_params hover_env false = 40.
Proof.
  split.
  - destruct (fast_tilt_floor front_tilt_params cruise_env) as (_ & Hfast & _).
    + discriminate.
    + apply Hfast. right. repeat split.
  - destruct (fast_tilt_floor front_tilt_params hover_env) as (_ & _ & Hslow).
    + discriminate.
    + apply Hslow; [| reflexivity].
      intros [Hm | (_ & Hv & _)]; discriminate.
Defined.

Lemma ground_test_gated_witness :
  vectoring vectored_params bench_env (with_tilt 0) = [].
Proof.
  apply (ground_test_gated vectored_params bench_env (with_tilt 0)).
  right. reflexivity.
Defined.

Lemma binary_forward_gating_witness :
  Forall (binary_cycle_ok)
    (run_cycles binary_params [cruise_env; cruise_env] initial_state) /\
  snd (update binary_params cruise_env initial_state)
  = [set_output_scaled k_motor_tilt 1000].
Proof.
  destruct (binary_forward_gating binary_params [cruise_env; cruise_env])
    as [Hrun Hfirst].
  - reflexivity.
  - discriminate.
  - reflexivity.
  - repeat constructor.
  - split; [exact Hrun |].
    apply Hfirst; [reflexivity |].
    unfold tilt_max_change, tilt_rate, Rleb. simpl.
    destruct (Rle_dec 0 0); simpl; lra.
Defined.

Lemma vectored_yaw_base_output_witness :
  zero_out vectored_params = 5 / 95 /\
  base_output vectored_params (with_tilt 0) = zero_out vectored_params.
Proof.
  destruct (vectored_yaw_base_output vectored_params (with_tilt 0))
    as (Hz & Hb & _); try reflexivity.
  split; assumption.
Defined.


(* ------------------------------------------------------------------ *)
(** * Part IV: further properties of the code

    ** The slew limiter *)

Section SlewCoverage.

Variable p : Params.

Lemma Rabs_le_bounds a b : Rabs a <= b -> - b <= a <= b.
Proof. unfold Rabs. destruct (Rcase_abs a); intros; lra. Qed.

(** A clamp around [c] toward [t] stays between [c] and [t]. *)
Lemma constrain_float_between t c mc :
  0 <= mc ->
  (c <= t -> c <= constrain_float t (c - mc) (c + mc) <= t) /\
  (t <= c -> t <= constrain_float t (c - mc) (c + mc) <= c).
Proof.
  intros Hmc.
  destruct (constrain_float_cases t (c - mc) (c + mc))
    as [[? ->] | [(? & ? & ->) | [? ->]]]; split; intros; lra.
Qed.

(** A clamp around [c] toward [t] stays in any interval that holds
    both. *)
Lemma constrain_float_toward_in_range t c mc lo hi :
  0 <= mc -> lo <= t <= hi -> lo <= c <= hi ->
  lo <= constrain_float t (c - mc) (c + mc) <= hi.
Proof.
  intros Hmc Ht Hc.
  destruct (constrain_float_between t c mc Hmc) as [Hup Hdown].
  destruct (Rle_lt_dec c t) as [Hle | Hlt].
  - specialize (Hup Hle). lra.
  - assert (Hle : t <= c) by lra. specialize (Hdown Hle). lra.
Qed.

(** X1. [slew] moves toward its target without passing it, lands on
    it when it is within one step, and once there stays there. *)
Theorem slew_approaches_target e s newtilt :
  0 <= max_rate_up_dps p -> 0 <= G_Dt e ->
  let new := current_tilt (fst (slew p e s newtilt)) in
  (current_tilt s <= newtilt -> current_tilt s <= new <= newtilt) /\
  (newtilt <= current_tilt s -> newtilt <= new <= current_tilt s) /\
  (Rabs (newtilt - current_tilt s)
   <= tilt_max_change p e (Rltb newtilt (current_tilt s)) -> new = newtilt) /\
  (newtilt = current_tilt s -> new = current_tilt s).
Proof.
  intros Hup Hdt new. subst new. rewrite slew_current_tilt. cbv zeta.
  pose proof (tilt_max_change_nonneg p e (Rltb newtilt (current_tilt s)) Hup Hdt)
    as Hmc.
  set (mc := tilt_max_change p e (Rltb newtilt (current_tilt s))) in *.
  destruct (constrain_float_between newtilt (current_tilt s) mc Hmc) as [Hu Hd].
  split; [exact Hu |]. split; [exact Hd |]. split.
  - intros Hnear. apply Rabs_le_bounds in Hnear.
    apply constrain_float_inside. lra.
  - intros Heq. rewrite constrain_float_inside by lra. exact Heq.
Qed.

(** X2. The 90 deg/s floor is for downward moves of the non-binary
    types only: an upward move always uses [max_rate_up_dps], and for
    the Binary type the rate does not depend on what the cycle reads. *)
Theorem fast_tilt_only_down_non_binary :
  (forall e, tilt_rate p e true = max_rate_up_dps p) /\
  (type p = TILT_TYPE_BINARY ->
   forall e1 e2 up, tilt_rate p e1 up = tilt_rate p e2 up).
Proof.
  split.
  - intros e. unfold tilt_rate. simpl.
    destruct (tilt_type_eqb (type p) TILT_TYPE_BINARY); reflexivity.
  - intros Hty e1 e2 up. unfold tilt_rate. rewrite Hty. reflexivity.
Qed.



(** X4. In a VTOL context before the transition timer, with no manual
    forward throttle channel, a tilt that is within [Q_TILT_MAX] stays
    within [Q_TILT_MAX]. *)
Theorem tilt_limited_before_transition e s :
  type p <> TILT_TYPE_BINARY ->
  0 <= max_rate_up_dps p -> 0 <= G_Dt e ->
  0 <= max_angle_deg p ->
  in_vtol_mode e = true \/ (soft_armed e = true /\ assisted_flight e = true) ->
  (assisted_flight e = true -> transition_state e = TRANSITION_AIRSPEED_WAIT) ->
  rc_fwd_thr_ch e = false ->
  0 <= current_tilt s <= max_angle_deg p / 90 ->
  0 <= current_tilt (fst (update p e s)) <= max_angle_deg p / 90.
Proof.
  intros Hty Hup Hdt Hmax Hctx Hearly Hrc Hs.
  rewrite update_current_tilt.
  destruct (negb (enabled p) || (tilt_mask p =? 0)%Z); [exact Hs |].
  replace (tilt_type_eqb (type p) TILT_TYPE_BINARY) with false
    by (destruct (type p); try reflexivity; congruence).
  assert (Ht : 0 <= tilt_target p e <= max_angle_deg p / 90).
  { unfold tilt_target.
    replace (negb (in_vtol_mode e)
             && (negb (soft_armed e) || negb (assisted_flight e))) with false
      by (destruct Hctx as [-> | [-> ->]];
          [reflexivity | simpl; symmetry; apply andb_false_r]).
    destruct (flight_mode_eqb (control_mode e) mode_qautotune); [lra |].
    rewrite Hrc. simpl negb. cbv iota.
    destruct (negb (assisted_flight e) && _); [lra |].
    destruct (assisted_flight e) eqn:Ha.
    - rewrite (Hearly eq_refl). simpl.
      pose proof (constrain_float_bounds
                    ((get_output_scaled e k_throttle - MAX (throttle_min e) 0) / 50)
                    0 1 ltac:(lra)) as Hc.
      set (c := constrain_float _ 0 1) in *. nra.
    - simpl.
      pose proof (constrain_float_bounds
                    ((get_output_scaled e k_throttle - MAX (throttle_min e) 0) / 50)
                    0 1 ltac:(lra)) as Hc.
      set (c := constrain_float _ 0 1) in *. nra. }
  rewrite slew_current_tilt. cbv zeta.
  apply constrain_float_toward_in_range; auto.
  now apply tilt_max_change_nonneg.
Qed.

End SlewCoverage.

(* ------------------------------------------------------------------ *)
(** ** Whole cycles: the shadow throttle and what a cycle writes *)

Section CycleCoverage.

Variable p : Params.

Lemma is_zero_0 : is_zero 0 = true.
Proof.
  unfold is_zero. rewrite Rabs_R0.
  destruct (Rlt_dec 0 FLT_EPSILON) as [| Hn]; [reflexivity |].
  exfalso. apply Hn. unfold FLT_EPSILON.
  apply Rinv_0_lt_compat. apply pow_lt. lra.
Qed.

Lemma continuous_update_throttle_in_range e s :
  0 <= max_rate_up_dps p -> 0 <= G_Dt e ->
  0 <= motors_get_throttle e <= 1 ->
  0 <= current_throttle s <= 1 ->
  0 <= current_throttle (fst (continuous_update p e s)) <= 1.
Proof.
  intros Hup Hdt Hmt Hs. unfold continuous_update.
  destruct (negb (in_vtol_mode e) && (negb (soft_armed e) || negb (assisted_flight e))).
  - simpl.
    pose proof (constrain_float_bounds (get_output_scaled e k_throttle * 0.01) 0 1
                  ltac:(lra)) as Hnew.
    pose proof (tilt_max_change_nonneg p e false Hup Hdt) as Hmc.
    destruct (Rltb _ 1), (negb (soft_armed e)); simpl; try lra.
    apply constrain_float_toward_in_range; assumption.
  - set (up := Rltb (motors_get_throttle e)
                 (current_throttle (set_motors_active s false))).
    pose proof (tilt_max_change_nonneg p e up Hup Hdt) as Hmc.
    assert (Hc : 0 <= constrain_float (motors_get_throttle e)
                        (current_throttle s - tilt_max_change p e up)
                        (current_throttle s + tilt_max_change p e up) <= 1)
      by (apply constrain_float_toward_in_range; assumption).
    destruct (flight_mode_eqb (control_mode e) mode_qautotune); [exact Hc |].
    destruct (negb (assisted_flight e) && _).
    + destruct (negb (rc_fwd_thr_ch e)); exact Hc.
    + destruct (assisted_flight e && _); exact Hc.
Qed.

Lemma update_throttle_in_range e s :
  0 <= max_rate_up_dps p -> 0 <= G_Dt e ->
  0 <= motors_get_throttle e <= 1 ->
  0 <= current_throttle s <= 1 ->
  0 <= current_throttle (fst (update p e s)) <= 1.
Proof.
  intros Hup Hdt Hmt Hs. unfold update.
  destruct (negb (enabled p) || (tilt_mask p =? 0)%Z); [exact Hs |].
  destruct (tilt_type_eqb (type p) TILT_TYPE_BINARY).
  - replace (current_throttle (fst (let '(s0, o1) := binary_update p e s in _)))
      with (current_throttle (fst (binary_update p e s)))
      by (destruct (binary_update p e s); reflexivity).
    unfold binary_update. destruct (in_vtol_mode e); exact Hs.
  - replace (current_throttle (fst (let '(s0, o1) := continuous_update p e s in _)))
      with (current_throttle (fst (continuous_update p e s)))
      by (destruct (continuous_update p e s); reflexivity).
    now apply continuous_update_throttle_in_range.
Qed.

(** X5. Over any run of cycles from the initial state, the tilt and
    the shadow throttle both stay in [0, 1], for a cycle time that is
    not negative, a forward throttle input in percent, a mixer
    throttle in [0, 1] and [Q_TILT_MAX] at most 90 degrees. *)
Theorem run_cycles_state_in_range es :
  0 <= max_rate_up_dps p ->
  0 <= max_angle_deg p <= 90 ->
  Forall (fun e => 0 <= G_Dt e /\ 0 <= forward_throttle_pct e <= 100
                   /\ 0 <= motors_get_throttle e <= 1) es ->
  Forall (fun r => 0 <= current_tilt (fst r) <= 1
                   /\ 0 <= current_throttle (fst r) <= 1)
    (run_cycles p es initial_state).
Proof.
  intros Hup Hmax Hes.
  assert (H0 : 0 <= current_tilt initial_state <= 1
               /\ 0 <= current_throttle initial_state <= 1) by (simpl; lra).
  revert H0. generalize initial_state.
  induction Hes as [| e es (Hdt & Hpct & Hmt) _ IH]; intros s [Hs Hth]; simpl.
  - constructor.
  - assert (Hs' : 0 <= current_tilt (fst (update p e s)) <= 1).
    { apply update_in_range; auto. now apply tilt_target_in_range. }
    assert (Hth' : 0 <= current_throttle (fst (update p e s)) <= 1)
      by (now apply update_throttle_in_range).
    constructor; [split; assumption | apply IH; split; assumption].
Qed.

(** X6. Disarmed outside a VTOL mode, [continuous_update] zeroes the
    shadow throttle, leaves the motors inactive, and any forward-motor
    call it makes has zero throttle and an empty mask. *)
Theorem disarmed_fixed_wing_no_thrust e s :
  soft_armed e = false -> in_vtol_mode e = false ->
  current_throttle (fst (continuous_update p e s)) = 0 /\
  motors_active (fst (continuous_update p e s)) = false /\
  Forall (fun o => is_motor_output o = true ->
                   o = output_motor_mask 0 0 (rudder_dt e))
    (snd (continuous_update p e s)).
Proof.
  intros Harm Hfw. unfold continuous_update. rewrite Harm, Hfw. simpl.
  unfold motor_mask.
  destruct (Rltb _ 1); simpl; rewrite is_zero_0;
    (split; [reflexivity |]); (split; [reflexivity |]);
    destruct (motor_test_running e); simpl;
    repeat constructor; intros; try discriminate; reflexivity.
Qed.

Lemma vectoring_writes_tilt_servos e s :
  Forall (tilt_servo_write) (vectoring p e s).
Proof.
  assert (Hc : forall x, 0 <= 1000 * constrain_float x 0 1 <= 1000).
  { intros x. pose proof (constrain_float_bounds x 0 1 ltac:(lra)). lra. }
  unfold vectoring, ground_test, vectoring_flight, ground_test_vtol, fixed_wing_tilt.
  destruct (negb (soft_armed e) && option_disarmed_tilt e).
  - destruct (TILT_DELAY_MS <? since_armed_change e)%Z; [| constructor].
    destruct (in_vtol_mode e); cbv zeta;
      repeat (constructor; [split; [reflexivity | apply Hc] |]); constructor.
  - cbv zeta. destruct (Rltb _ _);
      repeat (constructor; [split; [reflexivity | apply Hc] |]); constructor.
Qed.

Lemma tilt_servo_write_flags o :
  tilt_servo_write o ->
  is_motor_output o = false /\ is_motor_tilt_write o = false
  /\ is_tilt_servo_write o = true.
Proof.
  destruct o as [f v | ? ? ?]; simpl; [| tauto].
  intros [Hf _]. destruct f; try discriminate; auto.
Qed.

Lemma vectoring_flags e s :
  existsb is_motor_output (vectoring p e s) = false /\
  existsb is_motor_tilt_write (vectoring p e s) = false.
Proof.
  pose proof (vectoring_writes_tilt_servos e s) as H.
  induction H as [| o l Ho _ [IH1 IH2]]; [split; reflexivity |].
  destruct (tilt_servo_write_flags o Ho) as (H1 & H2 & _).
  simpl. rewrite H1, H2. split; assumption.
Qed.

(** What [continuous_update] writes: the main tilt servo at 1000 times
    the new tilt, then at most one forward-motor call, and that only in
    pure fixed wing flight outside a motor test. *)
Lemma continuous_update_outputs e s :
  exists rest,
    snd (continuous_update p e s)
    = set_output_scaled k_motor_tilt
        (1000 * current_tilt (fst (continuous_update p e s))) :: rest /\
    existsb is_motor_tilt_write rest = false /\
    existsb is_tilt_servo_write rest = false /\
    (in_vtol_mode e = true \/ (soft_armed e = true /\ assisted_flight e = true)
     \/ motor_test_running e = true -> rest = []).
Proof.
  unfold continuous_update.
  destruct (in_vtol_mode e) eqn:Hv, (soft_armed e) eqn:Ha,
    (assisted_flight e) eqn:Has; simpl;
    try (destruct (flight_mode_eqb (control_mode e) mode_qautotune);
         [| destruct (flight_mode_eqb (control_mode e) mode_qacro
                      || flight_mode_eqb (control_mode e) mode_qstabilize
                      || flight_mode_eqb (control_mode e) mode_qhover);
            [destruct (negb (rc_fwd_thr_ch e)) |];
            try destruct (transition_ord (transition_state e)) as [| [| ?]]];
         simpl; exists []; repeat split; reflexivity);
    destruct (Rltb _ 1), (motor_test_running e) eqn:Hmt; simpl;
    eexists; (split; [reflexivity |]); repeat split; try reflexivity;
    intros [H | [[H1 H2] | H]]; try discriminate; reflexivity.
Qed.

(** X7. No forward-motor call in a VTOL mode, whatever the type; for
    the non-binary types none either when armed in assisted flight or
    while a motor test runs. *)
Theorem no_forward_motor_output e s :
  (in_vtol_mode e = true ->
   existsb is_motor_output (snd (update p e s)) = false) /\
  (type p <> TILT_TYPE_BINARY ->
   (soft_armed e = true /\ assisted_flight e = true)
   \/ motor_test_running e = true ->
   existsb is_motor_output (snd (update p e s)) = false).
Proof.
  assert (Hvec : forall s', existsb is_motor_output
                   (if tilt_type_eqb (type p) TILT_TYPE_VECTORED_YAW
                    then vectoring p e s' else []) = false).
  { intros s'. destruct (tilt_type_eqb (type p) TILT_TYPE_VECTORED_YAW);
      [apply vectoring_flags | reflexivity]. }
  assert (Hcont : in_vtol_mode e = true
                  \/ (soft_armed e = true /\ assisted_flight e = true)
                  \/ motor_test_running e = true ->
                  existsb is_motor_output (snd (continuous_update p e s)) = false).
  { intros Hc. destruct (continuous_update_outputs e s) as (rest & -> & _ & _ & Hr).
    rewrite (Hr Hc). reflexivity. }
  split.
  - intros Hv. unfold update.
    destruct (negb (enabled p) || (tilt_mask p =? 0)%Z); [reflexivity |].
    destruct (tilt_type_eqb (type p) TILT_TYPE_BINARY).
    + unfold binary_update. rewrite Hv. simpl. apply Hvec.
    + specialize (Hcont (or_introl Hv)).
      destruct (continuous_update p e s) as [s' o1]. simpl in *.
      rewrite existsb_app, Hcont, Hvec. reflexivity.
  - intros Hty Hc. unfold update.
    destruct (negb (enabled p) || (tilt_mask p =? 0)%Z); [reflexivity |].
    replace (tilt_type_eqb (type p) TILT_TYPE_BINARY) with false
      by (destruct (type p); try reflexivity; congruence).
    specialize (Hcont (or_intror Hc)).
    destruct (continuous_update p e s) as [s' o1]. simpl in *.
    rewrite existsb_app, Hcont, Hvec. reflexivity.
Qed.

(** X8. An active cycle commands the main tilt servo exactly once and
    first: the continuous types 1000 times the slewed tilt, the Binary
    type an end stop. The vectored tilt servos are written only by the
    VectoredYaw type. *)
Theorem update_commands_tilt_servo e s :
  enabled p = true -> tilt_mask p <> 0%Z ->
  exists rest,
    snd (update p e s)
    = set_output_scaled k_motor_tilt
        (if tilt_type_eqb (type p) TILT_TYPE_BINARY
         then (if in_vtol_mode e then 0 else 1000)
         else 1000 * current_tilt (fst (update p e s))) :: rest /\
    existsb is_motor_tilt_write rest = false /\
    (type p <> TILT_TYPE_VECTORED_YAW ->
     existsb is_tilt_servo_write rest = false).
Proof.
  intros Hen Hmask. unfold update.
  apply Z.eqb_neq in Hmask. rewrite Hen, Hmask. simpl.
  destruct (tilt_type_eqb (type p) TILT_TYPE_BINARY) eqn:Hb.
  - assert (Hty : type p = TILT_TYPE_BINARY)
      by (destruct (type p); try discriminate; reflexivity).
    rewrite Hty. simpl. unfold binary_update.
    destruct (in_vtol_mode e); simpl.
    + exists []. repeat split; reflexivity.
    + eexists. split; [reflexivity |].
      destruct (Rleb 1 _); simpl; repeat split; reflexivity.
  - destruct (continuous_update_outputs e s) as (rest & Hout & Hmt & Hts & _).
    destruct (continuous_update p e s) as [s' o1]. simpl in *. subst o1.
    eexists. split; [reflexivity |].
    rewrite !existsb_app, Hmt, Hts. simpl. split.
    + destruct (tilt_type_eqb (type p) TILT_TYPE_VECTORED_YAW);
        [apply vectoring_flags | reflexivity].
    + intros Hnv.
      replace (tilt_type_eqb (type p) TILT_TYPE_VECTORED_YAW) with false
        by (destruct (type p); try reflexivity; congruence).
      reflexivity.
Qed.

End CycleCoverage.

(* ------------------------------------------------------------------ *)
(** ** Vectoring *)

Section VectoringCoverage.

Variable p : Params.

(** X9. Whatever the yaw, roll, rudder or elevon input, [vectoring]
    writes nothing but vectored tilt servos, every value within
    [0, 1000]; it writes none of them or each of the five once. *)
Theorem vectoring_servo_range e s :
  Forall tilt_servo_write (vectoring p e s) /\
  (map written_function (vectoring p e s) = []
   \/ map written_function (vectoring p e s)
      = [Some k_tiltMotorLeft; Some k_tiltMotorRight; Some k_tiltMotorRear;
         Some k_tiltMotorRearLeft; Some k_tiltMotorRearRight]
   \/ map written_function (vectoring p e s)
      = [Some k_tiltMotorLeft; Some k_tiltMotorRight; Some k_tiltMotorRearLeft;
         Some k_tiltMotorRearRight; Some k_tiltMotorRear]).
Proof.
  split; [apply vectoring_writes_tilt_servos |].
  unfold vectoring, ground_test, vectoring_flight, ground_test_vtol, fixed_wing_tilt.
  destruct (negb (soft_armed e) && option_disarmed_tilt e).
  - destruct (TILT_DELAY_MS <? since_armed_change e)%Z; [| left; reflexivity].
    destruct (in_vtol_mode e); [right; left | right; right]; reflexivity.
  - cbv zeta. destruct (Rltb _ _); [right; right | right; left]; reflexivity.
Qed.

Lemma vectoring_geometry :
  0 <= tilt_yaw_angle p -> 0 <= fixed_angle p ->
  0 <= zero_out p /\ zero_out p <= level_out p /\ level_out p <= 1.
Proof.
  intros Hy Hf. unfold level_out, fixed_tilt_limit, zero_out, total_angle.
  set (t := 90 + tilt_yaw_angle p + fixed_angle p).
  assert (Ht : 0 < t) by (subst t; lra).
  assert (Hi : 0 < / t) by (now apply Rinv_0_lt_compat).
  assert (Hti : t * / t = 1) by (apply Rinv_r; lra).
  unfold Rdiv. repeat split; subst t; nra.
Qed.

(** X10. With angles that are not negative and a tilt in [0, 1], the
    base servo output lies between [zero_out] and [level_out], inside
    [0, 1], so the clamp leaves it as it is. *)
Theorem base_output_in_range s :
  0 <= tilt_yaw_angle p -> 0 <= fixed_angle p ->
  0 <= current_tilt s <= 1 ->
  0 <= zero_out p <= base_output p s /\
  base_output p s <= level_out p <= 1 /\
  constrain_float (base_output p s) 0 1 = base_output p s.
Proof.
  intros Hy Hf Hs.
  destruct (vectoring_geometry Hy Hf) as (Hz & Hzl & Hl).
  assert (Hb : zero_out p <= base_output p s <= level_out p)
    by (unfold base_output; nra).
  repeat split; try lra.
  apply constrain_float_inside. lra.
Qed.


(** X12. Disarmed with the ground test option set, [elapsed] ms after
    the arming state changed: the ground test runs exactly when
    [elapsed] is above 3000, also when the millisecond counter has
    wrapped in between. *)
Theorem ground_test_after_elapsed e s elapsed :
  soft_armed e = false -> option_disarmed_tilt e = true ->
  (0 <= elapsed < 2 ^ 32)%Z ->
  millis e = ((last_armed_change e + elapsed) mod 2 ^ 32)%Z ->
  vectoring p e s
  = if (3000 <? elapsed)%Z then ground_test p e s else [].
Proof.
  intros Harm Hopt Hel Hnow.
  unfold vectoring. rewrite Harm, Hopt. simpl.
  rewrite (since_armed_change_elapsed e elapsed Hel Hnow). reflexivity.
Qed.

End VectoringCoverage.

(* ------------------------------------------------------------------ *)
(** ** Thrust compensation: what the equalisation and the rescale do *)

Lemma ltb_succ_other i n : i <> n -> (i <? S n)%nat = (i <? n)%nat.
Proof.
  intros Hne. destruct (i <? n)%nat eqn:H.
  - apply Nat.ltb_lt in H. apply Nat.ltb_lt. lia.
  - apply Nat.ltb_ge in H. apply Nat.ltb_ge. lia.
Qed.

Section CompensateCoverage.

Variable p : Params.
Variable e : Env.
Variable s : State.

Lemma sum_tilted_ext f g n :
  (forall i, (i < n)%nat -> is_motor_tilting p i = true -> f i = g i) ->
  sum_tilted p f n = sum_tilted p g n.
Proof.
  induction n as [| n IH]; intros H; [reflexivity |].
  simpl. rewrite IH by (intros i Hi; apply H; lia).
  destruct (is_motor_tilting p n) eqn:Hn; [| reflexivity].
  rewrite (H n) by (try lia; assumption). reflexivity.
Qed.

Lemma sum_tilted_blend c k f g n :
  sum_tilted p (fun i => c + f i * k + g i) n
  = c * INR (count_tilted p n) + k * sum_tilted p f n + sum_tilted p g n.
Proof.
  induction n as [| n IH].
  - simpl. unfold count_tilted. simpl. ring.
  - cbn [sum_tilted]. rewrite IH, count_tilted_S.
    destruct (is_motor_tilting p n).
    + rewrite plus_INR. simpl INR. ring.
    + rewrite Nat.add_0_r. ring.
Qed.

(** [tilt_total] is the sum of the tilted motors after the first loop. *)
Lemma tilt_total_sum thrust n ntm tm :
  tilt_total (apply_factors p thrust n ntm tm)
  = sum_tilted p (fun i => nth i thrust 0 * tm) n.
Proof.
  induction n as [| n IH]; [reflexivity |].
  rewrite apply_factors_S. cbn [sum_tilted]. unfold apply_factor.
  pose proof (apply_factors_nth p thrust n ntm tm n) as Hn.
  rewrite Nat.ltb_irrefl in Hn.
  destruct (is_motor_tilting p n); cbn [negb tilt_total].
  - rewrite nth_upd_scale, Hn, IH. reflexivity.
  - rewrite IH. ring.
Qed.

(** Without an average the second loop completes only by never
    reading it. *)
Lemma equalise_none_result thrust n a :
  equalise p e s None thrust n = Some a -> a = (thrust, 0).
Proof.
  revert a. induction n as [| n IH]; intros a H.
  - unfold equalise, for_motors in H. simpl in H. congruence.
  - rewrite equalise_S in H.
    destruct (equalise p e s None thrust n) as [b |]; [| discriminate].
    simpl in H. destruct (is_motor_tilting p n); [discriminate |].
    injection H as <-. now apply IH.
Qed.

(** The second loop entry by entry, and where [largest_tilted] comes
    from. *)
Lemma equalise_exact q thrust n :
  exists thrust' largest,
    equalise p e s (Some q) thrust n = Some (thrust', largest) /\
    length thrust' = length thrust /\
    (forall i, (i < length thrust)%nat ->
       nth i thrust' 0 =
       if (i <? n)%nat && is_motor_tilting p i
       then current_tilt s * q + nth i thrust 0 * (1 - current_tilt s)
            + diff_thrust p e s i
       else nth i thrust 0) /\
    (largest = 0 \/
     exists i, (i < n)%nat /\ is_motor_tilting p i = true
               /\ largest = nth i thrust' 0).
Proof.
  induction n as [| n (th & L & Heq & Hlen & Hnth & HL)].
  - exists thrust, 0. repeat split; auto.
  - rewrite equalise_S, Heq. simpl.
    destruct (is_motor_tilting p n) eqn:Hn.
    + unfold equalise_motor.
      set (t1 := upd n _ th).
      set (t2 := upd n _ t1).
      assert (Hother : forall i, i <> n -> nth i t2 0 = nth i th 0)
        by (intros i Hi; subst t2 t1; now rewrite !nth_upd_other by congruence).
      exists t2, (MAX L (nth n t2 0)).
      split; [reflexivity |].
      split; [subst t2 t1; now rewrite !upd_length |].
      split.
      * intros i Hi.
        destruct (Nat.eq_dec i n) as [-> | Hne].
        -- replace (n <? S n)%nat with true by (symmetry; apply Nat.ltb_lt; lia).
           rewrite Hn. simpl.
           subst t2. rewrite nth_upd_same
             by (subst t1; rewrite upd_length, Hlen; exact Hi).
           subst t1. rewrite nth_upd_same by (rewrite Hlen; exact Hi).
           rewrite (Hnth n Hi), Nat.ltb_irrefl. reflexivity.
        -- rewrite (Hother i Hne), (Hnth i Hi), (ltb_succ_other i n Hne).
           reflexivity.
      * destruct (MAX_cases L (nth n t2 0)) as [[_ ->] | [_ ->]].
        -- destruct HL as [-> | (i & Hi & Hti & ->)]; [left; reflexivity |].
           right. exists i. split; [lia |]. split; [assumption |].
           symmetry. apply Hother. lia.
        -- right. exists n. split; [lia |]. split; [assumption | reflexivity].
    + exists th, L. split; [reflexivity |]. split; [assumption |]. split.
      * intros i Hi. rewrite (Hnth i Hi).
        destruct (Nat.eq_dec i n) as [-> | Hne].
        -- rewrite Hn, !andb_false_r. reflexivity.
        -- rewrite (ltb_succ_other i n Hne). reflexivity.
      * destruct HL as [-> | (i & Hi & Hti & ->)]; [left; reflexivity |].
        right. exists i. split; [lia |]. split; [assumption | reflexivity].
Qed.

(** The array before the rescale, for a tilted motor inside the array. *)
Lemma thrust_preclip_tilted thrust n ntm tm pre largest :
  thrust_preclip p e s thrust n ntm tm = Some (pre, largest) ->
  forall i, (i < n)%nat -> (i < length thrust)%nat ->
    is_motor_tilting p i = true ->
    exists q,
      avg_tilt_thrust (apply_factors p thrust n ntm tm) = Some q /\
      nth i pre 0
      = current_tilt s * q + nth i thrust 0 * tm * (1 - current_tilt s)
        + diff_thrust p e s i.
Proof.
  intros Hpre i Hi Hlen Hti. unfold thrust_preclip in Hpre.
  destruct (avg_tilt_thrust (apply_factors p thrust n ntm tm)) as [q |] eqn:Havg.
  - exists q. split; [reflexivity |].
    destruct (equalise_exact q (fa_thrust (apply_factors p thrust n ntm tm)) n)
      as (th & L & Heq & _ & Hnth & _).
    rewrite Heq in Hpre. injection Hpre as <- <-.
    rewrite Hnth by (rewrite apply_factors_length; exact Hlen).
    replace (i <? n)%nat with true by (symmetry; now apply Nat.ltb_lt).
    rewrite Hti. simpl.
    rewrite apply_factors_nth.
    replace (i <? n)%nat with true by (symmetry; now apply Nat.ltb_lt).
    rewrite Hti. reflexivity.
  - exfalso.
    assert (Hstep : forall k, (i < k)%nat ->
              equalise p e s None
                (fa_thrust (apply_factors p thrust n ntm tm)) k = None).
    { induction k as [| k IHk]; intros Hk; [lia |].
      rewrite equalise_S.
      destruct (Nat.eq_dec i k) as [<- | Hne].
      - destruct (equalise p e s None _ i); simpl; [rewrite Hti |]; reflexivity.
      - rewrite IHk by lia. reflexivity. }
    rewrite (Hstep n Hi) in Hpre. discriminate.
Qed.

(** X13. The callback leaves every entry from [num_motors] on as it
    was. *)
Theorem tilt_compensate_leaves_rest thrust n out :
  (n <= 255)%nat ->
  tilt_compensate p e s thrust n = Some out ->
  forall i, (n <= i)%nat -> nth i out 0 = nth i thrust 0.
Proof.
  intros Hn Hout i Hi.
  assert (Hangle : forall ntm tm o,
            tilt_compensate_angle p e s thrust n ntm tm = Some o ->
            nth i o 0 = nth i thrust 0).
  { intros ntm tm o Ho.
    destruct (thrust_preclip_defined p e s thrust n ntm tm Hn)
      as (pre & L & Hpre & _ & _ & _ & Hrest).
    unfold tilt_compensate_angle in Ho. rewrite Hpre in Ho.
    cbn [option_map] in Ho.
    assert (Ho' : o = rescale n (pre, L)) by congruence. subst o. clear Ho.
    rewrite rescale_nth, Hrest by (right; exact Hi).
    rewrite apply_factors_nth.
    replace (i <? n)%nat with false by (symmetry; now apply Nat.ltb_ge).
    destruct (Rlt_dec 1 L); reflexivity. }
  unfold tilt_compensate in Hout.
  destruct (Rle_dec (current_tilt s) 0); [congruence |].
  destruct (in_vtol_mode e); eapply Hangle; exact Hout.
Qed.

(** X14. The callback never amplifies a motor that does not tilt:
    its thrust goes out no larger in magnitude than it came in. *)
Theorem non_tilted_never_amplified thrust n out :
  (n <= 255)%nat ->
  tilt_compensate p e s thrust n = Some out ->
  forall i, is_motor_tilting p i = false ->
            Rabs (nth i out 0) <= Rabs (nth i thrust 0).
Proof.
  intros Hn Hout i Hti.
  assert (Hshrink : forall x m, -1 <= m <= 1 -> Rabs (x * m) <= Rabs x).
  { intros x m Hm. rewrite Rabs_mult.
    assert (Rabs m <= 1) by (apply Rabs_le; lra).
    pose proof (Rabs_pos x). nra. }
  assert (Hangle : forall ntm tm o,
            -1 <= ntm <= 1 ->
            tilt_compensate_angle p e s thrust n ntm tm = Some o ->
            Rabs (nth i o 0) <= Rabs (nth i thrust 0)).
  { intros ntm tm o Hm Ho.
    destruct (thrust_preclip_defined p e s thrust n ntm tm Hn)
      as (pre & L & Hpre & _ & _ & _ & Hrest).
    unfold tilt_compensate_angle in Ho. rewrite Hpre in Ho.
    cbn [option_map] in Ho.
    assert (Ho' : o = rescale n (pre, L)) by congruence. subst o. clear Ho.
    assert (Hpre_i : Rabs (nth i pre 0) <= Rabs (nth i thrust 0)).
    { rewrite Hrest by (left; exact Hti).
      rewrite apply_factors_nth, Hti.
      destruct (i <? n)%nat; [now apply Hshrink | lra]. }
    rewrite rescale_nth.
    destruct (Rlt_dec 1 L) as [Hsat | _]; [| exact Hpre_i].
    destruct (i <? n)%nat; [| exact Hpre_i].
    apply Rle_trans with (Rabs (nth i pre 0)); [| exact Hpre_i].
    apply Hshrink.
    assert (0 < 1 / L) by (apply Rdiv_lt_0_compat; lra).
    assert (1 / L < 1)
      by (apply Rmult_lt_reg_r with L; [lra |]; field_simplify; lra).
    lra. }
  unfold tilt_compensate in Hout.
  destruct (Rle_dec (current_tilt s) 0); [injection Hout as <-; lra |].
  destruct (in_vtol_mode e).
  - eapply Hangle; [apply COS_bound | exact Hout].
  - eapply Hangle; [| exact Hout]. lra.
Qed.

(** X15. The equalisation keeps the sum, and so the average, of the
    tilted motors: before the rescale they add up to what they added
    up to after the multiplier, plus the yaw differentials. *)
Theorem equalisation_keeps_tilted_sum thrust n ntm tm pre largest :
  (n <= 255)%nat -> (n <= length thrust)%nat ->
  thrust_preclip p e s thrust n ntm tm = Some (pre, largest) ->
  sum_tilted p (fun i => nth i pre 0) n
  = sum_tilted p (fun i => nth i thrust 0 * tm) n
    + sum_tilted p (diff_thrust p e s) n.
Proof.
  intros Hn Hlen Hpre.
  destruct (avg_tilt_thrust (apply_factors p thrust n ntm tm)) as [q |] eqn:Havg.
  - rewrite (sum_tilted_ext
               (fun i => nth i pre 0)
               (fun i => current_tilt s * q
                         + (nth i thrust 0 * tm) * (1 - current_tilt s)
                         + diff_thrust p e s i)).
    + rewrite sum_tilted_blend.
      unfold avg_tilt_thrust in Havg.
      rewrite apply_factors_count in Havg by assumption.
      rewrite tilt_total_sum in Havg.
      destruct (count_tilted p n) as [| c] eqn:Hc; [discriminate |].
      assert (Hq : q = sum_tilted p (fun i => nth i thrust 0 * tm) n / INR (S c))
        by congruence.
      assert (Hnz : INR (S c) <> 0) by (apply not_0_INR; discriminate).
      rewrite Hq. field. exact Hnz.
    + intros i Hi Hti.
      destruct (thrust_preclip_tilted thrust n ntm tm pre largest Hpre i Hi
                  ltac:(lia) Hti) as (q' & Hq' & ->).
      rewrite Havg in Hq'. injection Hq' as <-. reflexivity.
  - pose proof (proj1 (avg_tilt_thrust_none p thrust n ntm tm Hn) Havg) as Hnone.
    assert (Hzero : forall f, sum_tilted p f n = 0).
    { intros f. clear -Hnone. induction n as [| n IH]; [reflexivity |].
      simpl. rewrite IH by (intros i Hi; apply Hnone; lia).
      rewrite (Hnone n) by lia. ring. }
    rewrite !Hzero. ring.
Qed.

(** X16. Between two tilted motors the equalisation scales the thrust
    difference by [1 - current_tilt]: at full tilt only the yaw
    differentials tell them apart. *)
Theorem roll_differential_scaled thrust n ntm tm pre largest i j :
  thrust_preclip p e s thrust n ntm tm = Some (pre, largest) ->
  (i < n)%nat -> (j < n)%nat ->
  (i < length thrust)%nat -> (j < length thrust)%nat ->
  is_motor_tilting p i = true -> is_motor_tilting p j = true ->
  nth i pre 0 - nth j pre 0
  = (1 - current_tilt s) * (tm * (nth i thrust 0 - nth j thrust 0))
    + (diff_thrust p e s i - diff_thrust p e s j).
Proof.
  intros Hpre Hi Hj Hli Hlj Hti Htj.
  destruct (thrust_preclip_tilted thrust n ntm tm pre largest Hpre i Hi Hli Hti)
    as (q & Hq & ->).
  destruct (thrust_preclip_tilted thrust n ntm tm pre largest Hpre j Hj Hlj Htj)
    as (q' & Hq' & ->).
  rewrite Hq in Hq'. injection Hq' as <-. ring.
Qed.

(** X17. When the rescale triggers, the largest tilted motor goes out
    at exactly 1: some tilted motor gets 1 and no tilted motor more. *)
Theorem saturated_largest_is_one thrust n ntm tm pre largest :
  thrust_preclip p e s thrust n ntm tm = Some (pre, largest) ->
  1 < largest ->
  exists out,
    tilt_compensate_angle p e s thrust n ntm tm = Some out /\
    (exists i, (i < n)%nat /\ is_motor_tilting p i = true /\ nth i out 0 = 1) /\
    (forall i, (i < n)%nat -> is_motor_tilting p i = true -> nth i out 0 <= 1).
Proof.
  intros Hpre Hsat.
  unfold tilt_compensate_angle. rewrite Hpre. simpl option_map.
  exists (rescale n (pre, largest)). split; [reflexivity |].
  assert (Hscaled : forall i, (i < n)%nat ->
            nth i (rescale n (pre, largest)) 0 = nth i pre 0 * (1 / largest)).
  { intros i Hi. rewrite rescale_nth.
    destruct (Rlt_dec 1 largest); [| lra].
    replace (i <? n)%nat with true by (symmetry; now apply Nat.ltb_lt).
    reflexivity. }
  assert (HL1 : largest * (1 / largest) = 1) by (field; lra).
  unfold thrust_preclip in Hpre.
  destruct (avg_tilt_thrust (apply_factors p thrust n ntm tm)) as [q |].
  - destruct (equalise_exact q (fa_thrust (apply_factors p thrust n ntm tm)) n)
      as (th & L & Heq & _ & _ & HL).
    destruct (equalise_some p e s q (fa_thrust (apply_factors p thrust n ntm tm)) n)
      as (th2 & L2 & Heq2 & _ & _ & Hle & _).
    rewrite Heq in Heq2. injection Heq2 as <- <-.
    rewrite Heq in Hpre. injection Hpre as <- <-.
    split.
    + destruct HL as [-> | (i & Hi & Hti & HLi)]; [lra |].
      exists i. split; [assumption |]. split; [assumption |].
      rewrite (Hscaled i Hi), <- HLi. exact HL1.
    + intros i Hi Hti. rewrite (Hscaled i Hi).
      apply Rle_trans with (L * (1 / L)); [| lra].
      apply Rmult_le_compat_r; [| now apply Hle].
      apply Rlt_le. apply Rdiv_lt_0_compat; lra.
  - apply equalise_none_result in Hpre.
    assert (largest = 0) by congruence. lra.
Qed.

End CompensateCoverage.

(* ------------------------------------------------------------------ *)
(** ** Bicopter output *)

Section BicopterCoverage.

Variable p : Params.
Variable e : Env.
Variable SERVO_MAX : R.

(** A clamp moves a point of its range by no more than the offset. *)
Lemma constrain_float_offset base x lo hi :
  lo <= base <= hi ->
  Rabs (constrain_float (base + x) lo hi - base) <= Rabs x.
Proof.
  intros Hb.
  destruct (constrain_float_cases (base + x) lo hi)
    as [[? ->] | [(? & ? & ->) | [? ->]]];
    unfold Rabs; destruct (Rcase_abs _), (Rcase_abs x); lra.
Qed.

(** The yaw-angle scaling of the negative-going mixer values does not
    enlarge them. *)
Lemma bicopter_trim_shrinks m :
  0 <= tilt_yaw_angle p <= 90 ->
  Rabs (if is_negative m then m * (tilt_yaw_angle p / 90) else m) <= Rabs m.
Proof.
  intros Hy. destruct (is_negative m); [| lra].
  rewrite Rabs_mult.
  assert (Rabs (tilt_yaw_angle p / 90) <= 1) by (apply Rabs_le; lra).
  pose proof (Rabs_pos m). nra.
Qed.

(** X18. [bicopter_output] writes nothing, or the left then the right
    tilt servo, each within the servo travel; it runs the mixer exactly
    when the type is Bicopter, no motor test runs and the rotors are
    not pinned fully forward in fixed wing flight. *)
Theorem bicopter_output_shape s mixed :
  0 <= SERVO_MAX ->
  (bicopter_writes (bicopter_output p e SERVO_MAX s mixed) = []
   \/ exists l r,
        bicopter_writes (bicopter_output p e SERVO_MAX s mixed)
        = [set_output_scaled k_tiltMotorLeft l;
           set_output_scaled k_tiltMotorRight r] /\
        - SERVO_MAX <= l <= SERVO_MAX /\ - SERVO_MAX <= r <= SERVO_MAX) /\
  existsb runs_mixer (bicopter_output p e SERVO_MAX s mixed)
  = negb (negb (tilt_type_eqb (type p) TILT_TYPE_BICOPTER) || motor_test_running e)
    && negb (negb (in_vtol_mode e) && fully_fwd p s).
Proof.
  intros HS. unfold bicopter_output.
  destruct (negb (tilt_type_eqb (type p) TILT_TYPE_BICOPTER) || motor_test_running e);
    [split; [left |]; reflexivity |].
  destruct (negb (in_vtol_mode e) && fully_fwd p s).
  - split; [| reflexivity]. right. exists (- SERVO_MAX), (- SERVO_MAX).
    split; [reflexivity |]. lra.
  - cbv zeta. split.
    + right. eexists _, _. split.
      * destruct (assisted_flight e); reflexivity.
      * split; apply constrain_float_bounds; lra.
    + destruct (assisted_flight e); reflexivity.
Qed.

(** X19. When the mixer runs, each tilt servo sits at the tilt position
    [- current_tilt * SERVO_MAX] plus at most the mixer's demand scaled
    by [cos (current_tilt * pi/2)]: the authority shrinks as the rotors
    tilt forward and is gone at full tilt. *)
Theorem bicopter_authority s mixed :
  0 <= SERVO_MAX ->
  0 <= tilt_yaw_angle p <= 90 ->
  0 <= current_tilt s <= 1 ->
  type p = TILT_TYPE_BICOPTER -> motor_test_running e = false ->
  negb (in_vtol_mode e) && fully_fwd p s = false ->
  exists l r,
    bicopter_writes (bicopter_output p e SERVO_MAX s mixed)
    = [set_output_scaled k_tiltMotorLeft l;
       set_output_scaled k_tiltMotorRight r] /\
    Rabs (l + current_tilt s * SERVO_MAX)
    <= Rabs (mixed k_tiltMotorLeft) * cos (current_tilt s * (PI / 2)) /\
    Rabs (r + current_tilt s * SERVO_MAX)
    <= Rabs (mixed k_tiltMotorRight) * cos (current_tilt s * (PI / 2)) /\
    (current_tilt s = 1 -> l = - SERVO_MAX /\ r = - SERVO_MAX).
Proof.
  intros HS Hy Hs Hty Hmt Hpin. unfold bicopter_output.
  rewrite Hty, Hmt, Hpin. cbv zeta. simpl negb. cbv iota.
  set (c := cos (current_tilt s * (PI / 2))).
  assert (Hc : 0 <= c).
  { subst c. pose proof PI_RGT_0. apply cos_ge_0; nra. }
  assert (Hservo : forall m,
            Rabs (constrain_float
                    (- (current_tilt s * SERVO_MAX)
                     + (if is_negative m then m * (tilt_yaw_angle p / 90) else m) * c)
                    (- SERVO_MAX) SERVO_MAX
                  + current_tilt s * SERVO_MAX)
            <= Rabs m * c).
  { intros m.
    set (m' := if is_negative m then m * (tilt_yaw_angle p / 90) else m).
    pose proof (bicopter_trim_shrinks m Hy) as Hm. fold m' in Hm.
    pose proof (constrain_float_offset (- (current_tilt s * SERVO_MAX)) (m' * c)
                  (- SERVO_MAX) SERVO_MAX ltac:(nra)) as Hoff.
    replace (constrain_float (- (current_tilt s * SERVO_MAX) + m' * c)
               (- SERVO_MAX) SERVO_MAX + current_tilt s * SERVO_MAX)
      with (constrain_float (- (current_tilt s * SERVO_MAX) + m' * c)
              (- SERVO_MAX) SERVO_MAX - - (current_tilt s * SERVO_MAX)) by ring.
    rewrite Rabs_mult, (Rabs_pos_eq c Hc) in Hoff.
    pose proof (Rabs_pos m'). nra. }
  eexists _, _. split; [destruct (assisted_flight e); reflexivity |].
  split; [apply Hservo |]. split; [apply Hservo |].
  intros H1.
  assert (Hc0 : c = 0) by (subst c; rewrite H1, Rmult_1_l; apply cos_PI2).
  pose proof (Hservo (mixed k_tiltMotorLeft)) as Hl.
  pose proof (Hservo (mixed k_tiltMotorRight)) as Hr.
  fold c in Hl, Hr. rewrite Hc0 in Hl, Hr.
  apply Rabs_le_bounds in Hl. apply Rabs_le_bounds in Hr.
  rewrite H1 in Hl, Hr. rewrite H1. fold c. rewrite Hc0. split; lra.
Qed.

End BicopterCoverage.

(* ------------------------------------------------------------------ *)
(** ** Transition yaw target *)

Section YawCoverage.

Variable fixedwing_turn_rate : R -> R -> R.


(** X20. Without pilot yaw input, a second call of the yaw tracker in
    the same millisecond changes nothing. *)
Theorem yaw_target_same_instant y v :
  is_zero (pilot_input_yaw_rate_cds v) = true ->
  update_yaw_target fixedwing_turn_rate (update_yaw_target fixedwing_turn_rate y v) v
  = update_yaw_target fixedwing_turn_rate y v.
Proof.
  intros Hpilot.
  unfold update_yaw_target. cbv zeta.
  cbn [transition_yaw_set_ms transition_yaw_cd].
  rewrite Z.sub_diag, Zmod_0_l, Hpilot.
  replace (100 <? 0)%Z with false by reflexivity.
  cbn [negb orb]. f_equal.
  destruct (airspeed_estimate v); [| reflexivity].
  destruct (1000 <? Z.abs (nav_roll_cd v))%Z; [| reflexivity].
  ring.
Qed.


(** X22. Outside a VTOL mode the VTOL view is shown exactly when the
    yaw tracker is active, and an inactive tracker leaves its state
    alone. *)
Theorem vtol_view_follows_yaw_tracker vectored e y v :
  show_vtol_view vectored e
  = in_vtol_mode e
    || (match snd (transition_update_yaw_target fixedwing_turn_rate vectored e y v)
        with Some _ => true | None => false end) /\
  (snd (transition_update_yaw_target fixedwing_turn_rate vectored e y v) = None ->
   fst (transition_update_yaw_target fixedwing_turn_rate vectored e y v) = y).
Proof.
  unfold show_vtol_view, transition_update_yaw_target.
  destruct (in_vtol_mode e), vectored,
    (transition_ord (transition_state e) <=? transition_ord TRANSITION_TIMER)%nat;
    simpl; split; try reflexivity; intros; try discriminate; reflexivity.
Qed.

End YawCoverage.

(* ------------------------------------------------------------------ *)
(** ** Setup *)

Section SetupCoverage.

Variable p : Params.
Variable c : SetupEnv.

(** X23. [setup] turns the feature on by itself when the enable
    parameter was never set and a tilt mask or the Bicopter type is
    configured; an enable parameter that was set is left as it is, and
    at 0 or below nothing is set up. *)
Theorem setup_auto_enable :
  (enable_configured c = false ->
   tilt_mask p <> 0%Z \/ type p = TILT_TYPE_BICOPTER ->
   enable (setup_params (setup p c)) = 1%Z /\
   enabled (setup_params (setup p c)) = true /\
   setup_complete (setup p c) = transition_allocated c) /\
  (enable_configured c = true ->
   setup_params (setup p c) = p /\
   ((enable p <= 0)%Z ->
    setup_calls (setup p c) = [] /\
    setup_complete (setup p c) = false /\
    is_vectored (setup p c) = false)).
Proof.
  unfold setup. split.
  - intros Hcfg Hwant. rewrite Hcfg.
    replace (negb (tilt_mask p =? 0)%Z
             || tilt_type_eqb (type p) TILT_TYPE_BICOPTER) with true.
    + simpl. destruct (transition_allocated c); repeat split; reflexivity.
    + symmetry. destruct Hwant as [Hm | ->].
      * apply Z.eqb_neq in Hm. rewrite Hm. reflexivity.
      * apply orb_true_r.
  - intros Hcfg. rewrite Hcfg. simpl.
    destruct (enable p <=? 0)%Z eqn:Hle.
    + repeat split; reflexivity.
    + split; [destruct (transition_allocated c); reflexivity |].
      intros Hneg. apply Z.leb_gt in Hle. lia.
Qed.

(** X24. What [setup] registers matches what [update] does with the
    parameters it leaves: the thrust compensation callback is
    registered exactly when [update] is active (enabled with a tilt
    mask), and [_is_vectored] is set exactly when [update] runs
    [vectoring]. *)
Theorem setup_matches_update :
  (In set_thrust_compensation_callback (setup_calls (setup p c)) <->
   negb (enabled (setup_params (setup p c)))
   || (tilt_mask (setup_params (setup p c)) =? 0)%Z = false) /\
  is_vectored (setup p c)
  = negb (negb (enabled (setup_params (setup p c)))
          || (tilt_mask (setup_params (setup p c)) =? 0)%Z)
    && tilt_type_eqb (type (setup_params (setup p c))) TILT_TYPE_VECTORED_YAW.
Proof.
  unfold setup, enabled.
  set (auto := negb (enable_configured c)
               && (negb (tilt_mask p =? 0)%Z
                   || tilt_type_eqb (type p) TILT_TYPE_BICOPTER)).
  set (p1 := if auto then set_enable p 1 else p).
  assert (Hmask : tilt_mask p1 = tilt_mask p) by (subst p1; destruct auto; reflexivity).
  assert (Htype : type p1 = type p) by (subst p1; destruct auto; reflexivity).
  destruct (enable p1 <=? 0)%Z eqn:Hle.
  - cbn [setup_params setup_calls is_vectored].
    replace (0 <? enable p1)%Z with false
      by (symmetry; apply Z.ltb_ge; now apply Z.leb_le).
    split; [| reflexivity]. simpl. split; [| discriminate].
    destruct auto; simpl; intuition discriminate.
  - assert (Hen : (0 <? enable p1)%Z = true)
      by (apply Z.ltb_lt; now apply Z.leb_gt).
    destruct (transition_allocated c);
      cbn [setup_params setup_calls is_vectored];
      rewrite Hen; simpl negb; cbv iota; rewrite ?orb_false_l;
      (split; [| reflexivity]);
      destruct (tilt_mask p1 =? 0)%Z; simpl;
      destruct auto, (motors_matrix c),
        (tilt_type_eqb (type p1) TILT_TYPE_VECTORED_YAW);
      simpl; intuition discriminate.
Qed.

End SetupCoverage.

(* ------------------------------------------------------------------ *)
(** ** The further properties on the fixtures *)


Lemma slew_approaches_target_witness :
  current_tilt (fst (slew front_tilt_params hover_env (with_tilt 0.5) 0.5)) = 0.5.
Proof.
  pose proof (slew_approaches_target front_tilt_params hover_env (with_tilt 0.5) 0.5)
    as H.
  cbv zeta in H. destruct H as (_ & _ & _ & H); simpl; try lra.
  apply H. reflexivity.
Defined.

Lemma fast_tilt_only_down_non_binary_witness :
  tilt_rate front_tilt_params cruise_env true = 40 /\
  tilt_rate binary_params cruise_env false = tilt_rate binary_params hover_env false.
Proof.
  split.
  - apply (fast_tilt_only_down_non_binary front_tilt_params).
  - apply (fast_tilt_only_down_non_binary binary_params). reflexivity.
Defined.


Lemma tilt_limited_before_transition_witness :
  0 <= current_tilt (fst (update front_tilt_params hover_env (with_tilt 0.2)))
  <= max_angle_deg front_tilt_params / 90.
Proof.
  apply (tilt_limited_before_transition front_tilt_params hover_env (with_tilt 0.2));
    simpl; try lra; try reflexivity; try discriminate;
    try (left; reflexivity).
Defined.

Lemma run_cycles_state_in_range_witness :
  Forall (fun r => 0 <= current_tilt (fst r) <= 1
                   /\ 0 <= current_throttle (fst r) <= 1)
    (run_cycles front_tilt_params [cruise_env; hover_env] initial_state).
Proof.
  apply (run_cycles_state_in_range front_tilt_params [cruise_env; hover_env]).
  - simpl; lra.
  - simpl; lra.
  - repeat constructor; simpl; lra.
Defined.

Lemma disarmed_fixed_wing_no_thrust_witness :
  current_throttle (fst (continuous_update front_tilt_params parked_env (with_tilt 1)))
  = 0.
Proof.
  apply (disarmed_fixed_wing_no_thrust front_tilt_params parked_env (with_tilt 1));
    reflexivity.
Defined.

Lemma no_forward_motor_output_witness :
  existsb is_motor_output (snd (update binary_params hover_env (with_tilt 1))) = false.
Proof.
  destruct (no_forward_motor_output binary_params hover_env (with_tilt 1))
    as [Hvtol _].
  apply Hvtol. reflexivity.
Defined.

Lemma update_commands_tilt_servo_witness :
  exists rest,
    snd (update front_tilt_params cruise_env initial_state)
    = set_output_scaled k_motor_tilt
        (1000 * current_tilt (fst (update front_tilt_params cruise_env initial_state)))
      :: rest.
Proof.
  destruct (update_commands_tilt_servo front_tilt_params cruise_env initial_state)
    as (rest & Hout & _).
  - reflexivity.
  - discriminate.
  - exists rest. exact Hout.
Defined.

Lemma base_output_in_range_witness :
  constrain_float (base_output vectored_params (with_tilt 0.5)) 0 1
  = base_output vectored_params (with_tilt 0.5).
Proof.
  apply (base_output_in_range vectored_params (with_tilt 0.5)); simpl; lra.
Defined.


Lemma ground_test_after_elapsed_witness :
  vectoring vectored_params wrapped_bench_env (with_tilt 0)
  = ground_test vectored_params wrapped_bench_env (with_tilt 0).
Proof.
  apply (ground_test_after_elapsed vectored_params wrapped_bench_env (with_tilt 0) 4500).
  - reflexivity.
  - reflexivity.
  - lia.
  - reflexivity.
Defined.

Lemma tilt_compensate_leaves_rest_witness :
  exists out,
    tilt_compensate front_tilt_params cruise_env (with_tilt 0.5) [0.2; 0.9; 1; 0] 2
    = Some out /\
    nth 2 out 0 = 1.
Proof.
  destruct (tilt_compensate_defined front_tilt_params cruise_env (with_tilt 0.5)
              [0.2; 0.9; 1; 0] 2) as [out Hout]; [lia |].
  exists out. split; [exact Hout |].
  apply (tilt_compensate_leaves_rest front_tilt_params cruise_env (with_tilt 0.5)
           [0.2; 0.9; 1; 0] 2 out); [lia | exact Hout | lia].
Defined.

Lemma non_tilted_never_amplified_witness :
  exists out,
    tilt_compensate front_tilt_params hover_env (with_tilt 0.5) [0.2; 0.9; 1; 0] 4
    = Some out /\
    Rabs (nth 2 out 0) <= Rabs 1.
Proof.
  destruct (tilt_compensate_defined front_tilt_params hover_env (with_tilt 0.5)
              [0.2; 0.9; 1; 0] 4) as [out Hout]; [lia |].
  exists out. split; [exact Hout |].
  apply (non_tilted_never_amplified front_tilt_params hover_env (with_tilt 0.5)
           [0.2; 0.9; 1; 0] 4 out); [lia | exact Hout | reflexivity].
Defined.

Lemma equalisation_keeps_tilted_sum_witness :
  sum_tilted front_tilt_params (fun i => nth i [1.65; 1.75; 0.3; 0.3] 0) 4
  = sum_tilted front_tilt_params (fun i => nth i [0.8; 0.9; 0.3; 0.3] 0 * 2) 4
    + sum_tilted front_tilt_params
        (diff_thrust front_tilt_params cruise_env (with_tilt 0.5)) 4.
Proof.
  apply (equalisation_keeps_tilted_sum front_tilt_params cruise_env (with_tilt 0.5)
           [0.8; 0.9; 0.3; 0.3] 4 1 2 [1.65; 1.75; 0.3; 0.3] 1.75).
  - lia.
  - simpl. lia.
  - exact thrust_preclip_saturating.
Defined.

Lemma roll_differential_scaled_witness :
  nth 0 [1.65; 1.75; 0.3; 0.3] 0 - nth 1 [1.65; 1.75; 0.3; 0.3] 0
  = (1 - current_tilt (with_tilt 0.5))
    * (2 * (nth 0 [0.8; 0.9; 0.3; 0.3] 0 - nth 1 [0.8; 0.9; 0.3; 0.3] 0))
    + (diff_thrust front_tilt_params cruise_env (with_tilt 0.5) 0
       - diff_thrust front_tilt_params cruise_env (with_tilt 0.5) 1).
Proof.
  apply (roll_differential_scaled front_tilt_params cruise_env (with_tilt 0.5)
           [0.8; 0.9; 0.3; 0.3] 4 1 2 [1.65; 1.75; 0.3; 0.3] 1.75 0%nat 1%nat);
    try (simpl; lia); try reflexivity.
  exact thrust_preclip_saturating.
Defined.

Lemma saturated_largest_is_one_witness :
  exists out,
    tilt_compensate_angle front_tilt_params cruise_env (with_tilt 0.5)
      [0.8; 0.9; 0.3; 0.3] 4 1 2 = Some out /\
    exists i, (i < 4)%nat /\ is_motor_tilting front_tilt_params i = true
              /\ nth i out 0 = 1.
Proof.
  destruct (saturated_largest_is_one front_tilt_params cruise_env (with_tilt 0.5)
              [0.8; 0.9; 0.3; 0.3] 4 1 2 [1.65; 1.75; 0.3; 0.3] 1.75)
    as (out & Hout & Hone & _).
  - exact thrust_preclip_saturating.
  - lra.
  - exists out. split; assumption.
Defined.

Lemma bicopter_output_shape_witness :
  existsb runs_mixer
    (bicopter_output bicopter_params hover_env 4500 (with_tilt 0.5) mixed_yaw)
  = true.
Proof.
  destruct (bicopter_output_shape bicopter_params hover_env 4500 (with_tilt 0.5)
              mixed_yaw) as [_ Hmix]; [lra |].
  rewrite Hmix. reflexivity.
Defined.

Lemma bicopter_authority_witness :
  exists l r,
    bicopter_writes
      (bicopter_output bicopter_params hover_env 4500 (with_tilt 1) mixed_yaw)
    = [set_output_scaled k_tiltMotorLeft l; set_output_scaled k_tiltMotorRight r] /\
    l = - 4500 /\ r = - 4500.
Proof.
  destruct (bicopter_authority bicopter_params hover_env 4500 (with_tilt 1) mixed_yaw)
    as (l & r & Hw & _ & _ & Hfull); simpl; try lra; try reflexivity.
  exists l, r. split; [exact Hw |]. apply Hfull. reflexivity.
Defined.

Lemma yaw_target_same_instant_witness :
  update_yaw_target sample_turn_rate
    (update_yaw_target sample_turn_rate yaw_before_wrap (banked_at 4))
    (banked_at 4)
  = update_yaw_target sample_turn_rate yaw_before_wrap (banked_at 4).
Proof.
  apply (yaw_target_same_instant sample_turn_rate yaw_before_wrap (banked_at 4)).
  apply is_zero_0.
Defined.


Lemma setup_auto_enable_witness :
  enabled (setup_params (setup unset_params fresh_setup)) = true /\
  setup_complete (setup unset_params fresh_setup) = true.
Proof.
  destruct (setup_auto_enable unset_params fresh_setup) as [Hauto _].
  destruct Hauto as (_ & Hen & Hdone).
  - reflexivity.
  - left. discriminate.
  - split; [exact Hen | exact Hdone].
Defined.
